(** * FlamingoSwapBot: the two-channel paper-trading state machine

    A shallow embedding of [src/main.py] (class [FlamingoSwapBot]) and of
    [src/debug.py] (function [get_rate]).

    Numbers.  Every balance, rate and amount of the bot is a Python [float].
    The embedding is written once over an interface [Arith] of the
    operations the source applies to them, and is run at two instances:
    - [Binary64]: IEEE 754 binary64 with round-to-nearest-even, which is
      what CPython's [float] is; literals are rounded the way Python reads
      them;
    - [Exact]: the rationals, the "decimal" arithmetic of the design
      document, where conversions are exact.
    Python's [/] raises [ZeroDivisionError] on a zero divisor; [truediv]
    keeps that, at both instances.  What is said of the program is stated
    for every instance or at [Binary64]; a statement at [Exact] alone is a
    fact of the design document's arithmetic and is marked as such.

    Effects.  A method of the bot is a state transformer that either returns
    or raises, with the attributes as they are at that moment ([outcome]).
    Logging, printing and [time.sleep] have no effect on the attributes and
    are left out; the attributes the trade logic never reads ([initial_neo],
    [initial_gas], [api_url], [rpc_urls], [logger]) are left out too.  The
    loop of [run] never ends by itself: [run] below executes one iteration
    per element of a finite list of feed responses. *)

From Stdlib Require Import ZArith QArith Lqa Floats List Bool.
From stdpp Require Import base strings gmap.
Import ListNotations.

Set Warnings "-inexact-float".
Local Open Scope string_scope.

(* ===================================================================== *)
(** ** Numbers *)
(* ===================================================================== *)

Class Arith : Type := {
  num : Type;
  lit : Q -> num;                 (* a numeric literal of the source *)
  fadd : num -> num -> num;       (* a + b *)
  fsub : num -> num -> num;       (* a - b *)
  fmul : num -> num -> num;       (* a * b *)
  fquot : num -> num -> num;      (* a / b, for b other than zero *)
  fle : num -> num -> bool;       (* a <= b *)
  flt : num -> num -> bool;       (* a < b *)
  fzero : num -> bool             (* a == 0 *)
}.

Declare Scope py_scope.
Delimit Scope py_scope with py.
Infix "+" := fadd : py_scope.
Infix "-" := fsub : py_scope.
Infix "*" := fmul : py_scope.
Infix "<=?" := fle : py_scope.
Infix "<?" := flt : py_scope.
Notation "a >=? b" := (fle b a) (at level 70) : py_scope.

(** Conversion of an integer to binary64, rounded to nearest; exact below
    2^53. *)
Definition float_of_Z (z : Z) : float :=
  SF2Prim (binary_normalize prec emax z 0 false).

(** A decimal literal [m / 10^k] is read as the binary64 nearest to it: both
    [m] and [10^k] are exact in binary64 for the literals of the source, and
    IEEE division is correctly rounded. *)
Definition float_lit (q : Q) : float :=
  PrimFloat.div (float_of_Z (Qnum q)) (float_of_Z (Zpos (Qden q))).

Definition Binary64 : Arith := {|
  num := float;
  lit := float_lit;
  fadd := PrimFloat.add;
  fsub := PrimFloat.sub;
  fmul := PrimFloat.mul;
  fquot := PrimFloat.div;
  fle := PrimFloat.leb;
  flt := PrimFloat.ltb;
  fzero := fun x => PrimFloat.eqb x PrimFloat.zero
|}.

Definition Exact : Arith := {|
  num := Q;
  lit := fun q => q;
  fadd := Qplus;
  fsub := Qminus;
  fmul := Qmult;
  fquot := Qdiv;
  fle := Qle_bool;
  flt := fun a b => negb (Qle_bool b a);
  fzero := fun x => Qeq_bool x 0
|}.

(* ===================================================================== *)
(** ** Exceptions and the two monads *)
(* ===================================================================== *)

Inductive exn : Type :=
  | ZeroDivisionError
  | TypeError
  | AttributeError
  | RequestException      (* requests.get / raise_for_status *)
  | JSONDecodeError.      (* response.json() *)

(** Code without attributes to update: a value or an exception. *)
Inductive result (R : Type) : Type :=
  | Ok (r : R)
  | Err (e : exn).
Arguments Ok {R} r.
Arguments Err {R} e.

Definition rbind {R T : Type} (c : result R) (k : R -> result T) : result T :=
  match c with
  | Ok r => k r
  | Err e => Err e
  end.

(** A method of an object of state [S]: it returns or raises, and in both
    cases leaves the attributes in some state. *)
Inductive outcome (S R : Type) : Type :=
  | Returned (r : R) (s : S)
  | Raised (e : exn) (s : S).
Arguments Returned {S R} r s.
Arguments Raised {S R} e s.

Definition method (S R : Type) : Type := S -> outcome S R.

Definition ret {S R : Type} (r : R) : method S R := fun s => Returned r s.

Definition bind {S R T : Type} (c : method S R) (k : R -> method S T)
  : method S T :=
  fun s => match c s with
           | Returned r s' => k r s'
           | Raised e s' => Raised e s'
           end.

Definition read {S R : Type} (f : S -> R) : method S R :=
  fun s => Returned (f s) s.

Definition write {S : Type} (f : S -> S) : method S unit :=
  fun s => Returned tt (f s).

Definition lift {S R : Type} (c : result R) : method S R :=
  fun s => match c with
           | Ok r => Returned r s
           | Err e => Raised e s
           end.

Declare Scope method_scope.
Delimit Scope method_scope with method.
Notation "x <- c ;; k" := (bind c (fun x => k))
  (at level 100, c at next level, right associativity) : method_scope.
Notation "c ;; k" := (bind c (fun _ => k))
  (at level 100, right associativity) : method_scope.

Declare Scope result_scope.
Delimit Scope result_scope with result.
Notation "x <- c ;; k" := (rbind c (fun x => k))
  (at level 100, c at next level, right associativity) : result_scope.

(** The attributes of a method's outcome, returned or raised. *)
Definition final {S R : Type} (o : outcome S R) : S :=
  match o with
  | Returned _ s => s
  | Raised _ s => s
  end.

Section Bot.
Context {A : Arith}.

(** Python's true division of two floats. *)
Definition truediv (a b : num) : result num :=
  if fzero b then Err ZeroDivisionError else Ok (fquot a b).

(* ===================================================================== *)
(** ** The bot's attributes *)
(* ===================================================================== *)

(** [{"entry_rate": rate, "gas_amount": gas_received}] *)
Record NeoToGasTrade : Type := {
  ng_entry_rate : num;
  gas_amount : num
}.

(** [{"entry_rate": rate, "neo_amount": neo_received}] *)
Record GasToNeoTrade : Type := {
  gn_entry_rate : num;
  neo_amount : num
}.

Record Bot : Type := {
  neo_balance : num;
  gas_balance : num;
  active_trade_neo_to_gas : option NeoToGasTrade;
  active_trade_gas_to_neo : option GasToNeoTrade;
  entry_lower_bound : num;
  entry_upper_bound : num
}.

Definition set_neo_balance (v : num) (self : Bot) : Bot :=
  {| neo_balance := v;
     gas_balance := gas_balance self;
     active_trade_neo_to_gas := active_trade_neo_to_gas self;
     active_trade_gas_to_neo := active_trade_gas_to_neo self;
     entry_lower_bound := entry_lower_bound self;
     entry_upper_bound := entry_upper_bound self |}.

Definition set_gas_balance (v : num) (self : Bot) : Bot :=
  {| neo_balance := neo_balance self;
     gas_balance := v;
     active_trade_neo_to_gas := active_trade_neo_to_gas self;
     active_trade_gas_to_neo := active_trade_gas_to_neo self;
     entry_lower_bound := entry_lower_bound self;
     entry_upper_bound := entry_upper_bound self |}.

Definition set_active_trade_neo_to_gas (v : option NeoToGasTrade) (self : Bot)
  : Bot :=
  {| neo_balance := neo_balance self;
     gas_balance := gas_balance self;
     active_trade_neo_to_gas := v;
     active_trade_gas_to_neo := active_trade_gas_to_neo self;
     entry_lower_bound := entry_lower_bound self;
     entry_upper_bound := entry_upper_bound self |}.

Definition set_active_trade_gas_to_neo (v : option GasToNeoTrade) (self : Bot)
  : Bot :=
  {| neo_balance := neo_balance self;
     gas_balance := gas_balance self;
     active_trade_neo_to_gas := active_trade_neo_to_gas self;
     active_trade_gas_to_neo := v;
     entry_lower_bound := entry_lower_bound self;
     entry_upper_bound := entry_upper_bound self |}.

(** [FlamingoSwapBot.__init__] *)
Definition init : Bot :=
  {| neo_balance := lit 10000;
     gas_balance := lit 100000;
     active_trade_neo_to_gas := None;
     active_trade_gas_to_neo := None;
     entry_lower_bound := lit 0.2995;
     entry_upper_bound := lit 0.3005 |}.

(* ===================================================================== *)
(** ** Entry conditions *)
(* ===================================================================== *)

Local Open Scope py_scope.

Definition check_entry_neo_to_gas (rate : num) (self : Bot) : bool :=
  match active_trade_neo_to_gas self with
  | Some _ => false
  | None => (entry_lower_bound self <=? rate) && (rate <=? entry_upper_bound self)
  end.

Definition check_entry_gas_to_neo (rate : num) (self : Bot) : bool :=
  match active_trade_gas_to_neo self with
  | Some _ => false
  | None => (entry_lower_bound self <=? rate) && (rate <=? entry_upper_bound self)
  end.

(* ===================================================================== *)
(** ** NEO -> GAS *)
(* ===================================================================== *)

Local Open Scope method_scope.

Definition enter_neo_to_gas_trade (rate : num) : method Bot unit :=
  neo <- read neo_balance ;;
  if neo <? lit 3000 then ret tt
  else
    write (set_neo_balance (neo - lit 3000)) ;;
    gas_received <- lift (truediv (lit 3000) rate) ;;
    gas <- read gas_balance ;;
    write (set_gas_balance (gas + gas_received)) ;;
    write (set_active_trade_neo_to_gas
             (Some {| ng_entry_rate := rate; gas_amount := gas_received |})).

Definition check_exit_neo_to_gas (rate : num) : method Bot unit :=
  trade <- read active_trade_neo_to_gas ;;
  match trade with
  | None => ret tt
  | Some trade =>
      let entry_rate := ng_entry_rate trade in
      if rate >=? entry_rate + lit 0.001 then
        let gas_amount := gas_amount trade in
        let neo_received := gas_amount * rate in
        gas <- read gas_balance ;;
        write (set_gas_balance (gas - gas_amount)) ;;
        neo <- read neo_balance ;;
        write (set_neo_balance (neo + neo_received)) ;;
        write (set_active_trade_neo_to_gas None)
      else ret tt
  end.

(* ===================================================================== *)
(** ** GAS -> NEO *)
(* ===================================================================== *)

Definition enter_gas_to_neo_trade (rate : num) : method Bot unit :=
  gas <- read gas_balance ;;
  if gas <? lit 10000 then ret tt
  else
    write (set_gas_balance (gas - lit 10000)) ;;
    let neo_received := lit 10000 * rate in
    neo <- read neo_balance ;;
    write (set_neo_balance (neo + neo_received)) ;;
    write (set_active_trade_gas_to_neo
             (Some {| gn_entry_rate := rate; neo_amount := neo_received |})).

Definition check_exit_gas_to_neo (rate : num) : method Bot unit :=
  trade <- read active_trade_gas_to_neo ;;
  match trade with
  | None => ret tt
  | Some trade =>
      let entry_rate := gn_entry_rate trade in
      if rate <=? entry_rate - lit 0.001 then
        let neo_amount := neo_amount trade in
        gas_received <- lift (truediv neo_amount rate) ;;
        neo <- read neo_balance ;;
        write (set_neo_balance (neo - neo_amount)) ;;
        gas <- read gas_balance ;;
        write (set_gas_balance (gas + gas_received)) ;;
        write (set_active_trade_gas_to_neo None)
      else ret tt
  end.

(* ===================================================================== *)
(** ** The polling loop *)
(* ===================================================================== *)

(** Lines 198-200 of [run]: the entry block of the NEO -> GAS channel. *)
Definition run_entry_neo_to_gas (rate : num) : method Bot unit :=
  trade <- read active_trade_neo_to_gas ;;
  match trade with
  | None =>
      ok <- read (check_entry_neo_to_gas rate) ;;
      if ok then enter_neo_to_gas_trade rate else ret tt
  | Some _ => ret tt
  end.

(** Lines 202-204 of [run]: the entry block of the GAS -> NEO channel. *)
Definition run_entry_gas_to_neo (rate : num) : method Bot unit :=
  trade <- read active_trade_gas_to_neo ;;
  match trade with
  | None =>
      ok <- read (check_entry_gas_to_neo rate) ;;
      if ok then enter_gas_to_neo_trade rate else ret tt
  | Some _ => ret tt
  end.

(** One iteration of the [while True] of [run], given what [get_rate]
    returned. *)
Definition run_iteration (fetched : option num) : method Bot unit :=
  match fetched with
  | None => ret tt                       (* log, sleep, continue *)
  | Some rate =>
      run_entry_neo_to_gas rate ;;
      run_entry_gas_to_neo rate ;;
      check_exit_neo_to_gas rate ;;
      check_exit_gas_to_neo rate
  end.

(** The loop over the successive results of [get_rate]; an exception that
    leaves an iteration leaves [run]. *)
Fixpoint run_fetched (fetched : list (option num)) : method Bot unit :=
  match fetched with
  | [] => ret tt
  | r :: rest => run_iteration r ;; run_fetched rest
  end.

End Bot.

(* ===================================================================== *)
(** ** The price feed: [get_rate] *)
(* ===================================================================== *)

Section Feed.
Context {A : Arith}.

(** What [item.get(key)] can return for a record of the decoded payload.
    [PyNum x] is a Python float, which is what [response.json] makes of a
    JSON number with a fraction or an exponent, or a Python int whose value
    a float holds exactly: on these [/] gives the same quotient as on the
    floats of the same value.  An int that no float holds exactly (beyond
    2^53 in general), on which [/] works on the integers themselves or
    raises [OverflowError], is not represented: the statements about
    [PyNum] prices say nothing of such a feed.  JSON [true] and [false] are
    Python's [True] and [False], which divide as 1 and 0; [PyOther] stands
    for a list or a dict. *)
Inductive pyval : Type :=
  | PyNone
  | PyBool (b : bool)
  | PyNum (x : num)
  | PyStr (s : string)
  | PyOther.

(** An element met by [for item in data]: a dict, or anything else (which
    has no [get]). *)
Inductive item : Type :=
  | Dict (d : gmap string pyval)
  | NotDict.

(** The decoded payload [data]. *)
Inductive json : Type :=
  | JArray (items : list item)
  | JObject (keys : list string)     (* iteration yields the keys *)
  | JString (s : string)             (* iteration yields the characters *)
  | JScalar.                         (* number, boolean, null *)

(** What [requests.get], [raise_for_status] and [response.json] make of the
    network. *)
Inductive response : Type :=
  | ConnectionFailed                 (* requests.get raises *)
  | BadStatus (code : Z)             (* raise_for_status raises *)
  | NotJson                          (* response.json raises *)
  | Body (data : json).

Definition fetch (r : response) : result json :=
  match r with
  | ConnectionFailed => Err RequestException
  | BadStatus _ => Err RequestException
  | NotJson => Err JSONDecodeError
  | Body data => Ok data
  end.

(** [iter(data)] *)
Definition iterate (data : json) : result (list item) :=
  match data with
  | JArray items => Ok items
  | JObject keys => Ok (map (fun _ => NotDict) keys)
  | JString s => Ok (repeat NotDict (String.length s))
  | JScalar => Err TypeError
  end.

(** [d.get(key)] on a dict: [None] for a missing key. *)
Definition dict_get (d : gmap string pyval) (key : string) : pyval :=
  default PyNone (d !! key).

(** [item.get(key)] *)
Definition item_get (it : item) (key : string) : result pyval :=
  match it with
  | Dict d => Ok (dict_get d key)
  | NotDict => Err AttributeError
  end.

(** [v == s] for a string literal [s] *)
Definition py_eq_str (v : pyval) (s : string) : bool :=
  match v with
  | PyStr s' => bool_decide (s' = s)
  | _ => false
  end.

(** [v is None] *)
Definition is_none (v : pyval) : bool :=
  match v with
  | PyNone => true
  | _ => false
  end.

(** The operand of an arithmetic operator. *)
Definition as_number (v : pyval) : result num :=
  match v with
  | PyNum x => Ok x
  | PyBool true => Ok (lit 1)
  | PyBool false => Ok (lit 0)
  | _ => Err TypeError
  end.

Local Open Scope result_scope.

(** [a / b] on two Python values *)
Definition py_truediv (a b : pyval) : result num :=
  x <- as_number a ;;
  y <- as_number b ;;
  truediv x y.

(** The body of the [for] loop of [get_rate], on the pair of local
    variables [(neo_price, gas_price)]. *)
Definition scan_item (prices : pyval * pyval) (it : item)
  : result (pyval * pyval) :=
  symbol <- item_get it "symbol" ;;
  if py_eq_str symbol "NEO" then
    usd_price <- item_get it "usd_price" ;;
    Ok (usd_price, snd prices)
  else
    symbol <- item_get it "symbol" ;;
    if py_eq_str symbol "GAS" then
      usd_price <- item_get it "usd_price" ;;
      Ok (fst prices, usd_price)
    else Ok prices.

Fixpoint scan (items : list item) (prices : pyval * pyval)
  : result (pyval * pyval) :=
  match items with
  | [] => Ok prices
  | it :: rest =>
      prices' <- scan_item prices it ;;
      scan rest prices'
  end.

(** The [try] block of [get_rate]. *)
Definition get_rate_try (r : response) : result (option num) :=
  data <- fetch r ;;
  items <- iterate data ;;
  prices <- scan items (PyNone, PyNone) ;;
  let neo_price := fst prices in
  let gas_price := snd prices in
  if is_none neo_price then Ok None
  else if is_none gas_price then Ok None
  else
    rate <- py_truediv gas_price neo_price ;;
    Ok (Some rate).                  (* float(rate) *)

(** [FlamingoSwapBot.get_rate]: [except Exception] turns every exception
    into [None]. *)
Definition get_rate (r : response) : option num :=
  match get_rate_try r with
  | Ok rate => rate
  | Err _ => None
  end.

(** [run] on a finite prefix of the feed: one response per iteration. *)
Definition run (feed : list response) : method Bot unit :=
  run_fetched (map get_rate feed).

(** *** The feed, as the design document describes it *)

(** The record carries the symbol [sym]. *)
Definition has_symbol (sym : string) (d : gmap string pyval) : bool :=
  py_eq_str (dict_get d "symbol") sym.

(** No record of the payload carries the symbol [sym]. *)
Definition absent (sym : string) (items : list item) : Prop :=
  forall d : gmap string pyval, In (Dict d) items -> has_symbol sym d = false.

(** The price the last record with symbol [sym], in array order, gives;
    [None] when no record has the symbol. *)
Definition last_price (sym : string) (items : list (gmap string pyval))
  : pyval :=
  match last (List.filter (has_symbol sym) items) with
  | Some d => dict_get d "usd_price"
  | None => PyNone
  end.

(** The rate made of a GAS price and a NEO price: their quotient, when both
    are there and the division goes through. *)
Definition rate_of_prices (gas_price neo_price : pyval) : option num :=
  if is_none neo_price then None
  else if is_none gas_price then None
  else match py_truediv gas_price neo_price with
       | Ok rate => Some rate
       | Err _ => None
       end.


(** The failures of the feed: the transport fails, the status is an error,
    the body is not JSON, the payload is not an array of records, or one of
    the two symbols is missing. *)
Inductive feed_fails : response -> Prop :=
  | transport_fails : feed_fails ConnectionFailed
  | status_fails (code : Z) : feed_fails (BadStatus code)
  | body_not_json : feed_fails NotJson
  | payload_not_array (data : json) :
      (forall items, data <> JArray items) -> feed_fails (Body data)
  | record_not_dict (items : list item) :
      In NotDict items -> feed_fails (Body (JArray items))
  | symbol_absent (sym : string) (items : list item) :
      sym = "NEO" \/ sym = "GAS" ->
      absent sym items -> feed_fails (Body (JArray items)).

End Feed.

(** [src/debug.py]: the same function outside the class. *)
Module Debug.
Section Feed.
Context {A : Arith}.
Local Open Scope result_scope.

Definition get_rate_try (r : response) : result (option num) :=
  data <- fetch r ;;
  items <- iterate data ;;
  prices <- scan items (PyNone, PyNone) ;;
  let neo_price := fst prices in
  let gas_price := snd prices in
  if is_none neo_price then Ok None
  else if is_none gas_price then Ok None
  else
    rate <- py_truediv gas_price neo_price ;;
    Ok (Some rate).

Definition get_rate (r : response) : option num :=
  match get_rate_try r with
  | Ok rate => rate
  | Err _ => None
  end.

End Feed.
End Debug.

(** A price record [{"symbol": sym, "usd_price": price}]. *)
Definition record {A : Arith} (sym : string) (price : num) : item :=
  Dict (<["symbol" := PyStr sym]> (<["usd_price" := PyNum price]> ∅)).


(* ===================================================================== *)
(** ** The two channels, uniformly *)
(* ===================================================================== *)

Inductive channel : Type := NeoToGas | GasToNeo.

Section Channels.
Context {A : Arith}.
Local Open Scope py_scope.

(** The channel holds a position: its [active_trade_*] is not [None]. *)
Definition is_open (c : channel) (self : Bot) : bool :=
  match c with
  | NeoToGas => bool_decide (active_trade_neo_to_gas self <> None)
  | GasToNeo => bool_decide (active_trade_gas_to_neo self <> None)
  end.

Definition check_entry (c : channel) : num -> Bot -> bool :=
  match c with
  | NeoToGas => check_entry_neo_to_gas
  | GasToNeo => check_entry_gas_to_neo
  end.

Definition enter_trade (c : channel) : num -> method Bot unit :=
  match c with
  | NeoToGas => enter_neo_to_gas_trade
  | GasToNeo => enter_gas_to_neo_trade
  end.

Definition check_exit (c : channel) : num -> method Bot unit :=
  match c with
  | NeoToGas => check_exit_neo_to_gas
  | GasToNeo => check_exit_gas_to_neo
  end.

Definition run_entry (c : channel) : num -> method Bot unit :=
  match c with
  | NeoToGas => run_entry_neo_to_gas
  | GasToNeo => run_entry_gas_to_neo
  end.

(** The guard at the head of [enter_*_trade]. *)
Definition insufficient (c : channel) (self : Bot) : bool :=
  match c with
  | NeoToGas => neo_balance self <? lit 3000
  | GasToNeo => gas_balance self <? lit 10000
  end.

(** One entry or exit step of [run] on one channel. *)
Inductive op : Type :=
  | Entry (c : channel) (rate : num)
  | Exit (c : channel) (rate : num).

Definition op_rate (o : op) : num :=
  match o with
  | Entry _ rate => rate
  | Exit _ rate => rate
  end.

Definition apply_op (o : op) : method Bot unit :=
  match o with
  | Entry c rate => run_entry c rate
  | Exit c rate => check_exit c rate
  end.

Fixpoint apply_ops (ops : list op) : method Bot unit :=
  match ops with
  | [] => ret tt
  | o :: rest => bind (apply_op o) (fun _ => apply_ops rest)
  end.

(** The four steps of one iteration of [run], in the order of the source. *)
Definition iteration_ops (rate : num) : list op :=
  [Entry NeoToGas rate; Entry GasToNeo rate;
   Exit NeoToGas rate; Exit GasToNeo rate].


(** One balance went down and the other went up. *)
Definition moves_both (s s' : Bot) : bool :=
  (neo_balance s' <? neo_balance s) && (gas_balance s <? gas_balance s')
  || (neo_balance s <? neo_balance s') && (gas_balance s' <? gas_balance s).

(** A trade action of channel [c] at [rate] takes [s] to [s']: a successful
    entry from idle (the guard of [run], sufficient funds, [enter_*_trade]
    returns), or an exit ([check_exit_*] returns with the position
    cleared). *)
Inductive action (c : channel) (rate : num) (s s' : Bot) : Prop :=
  | entry_action :
      is_open c s = false ->
      insufficient c s = false ->
      enter_trade c rate s = Returned tt s' ->
      action c rate s s'
  | exit_action :
      is_open c s = true ->
      check_exit c rate s = Returned tt s' ->
      is_open c s' = false ->
      action c rate s s'.

(** The state a successful [enter_neo_to_gas_trade] leaves. *)
Definition entered_neo_to_gas (rate : num) (s : Bot) : Bot :=
  {| neo_balance := neo_balance s - lit 3000;
     gas_balance := gas_balance s + fquot (lit 3000) rate;
     active_trade_neo_to_gas :=
       Some {| ng_entry_rate := rate; gas_amount := fquot (lit 3000) rate |};
     active_trade_gas_to_neo := active_trade_gas_to_neo s;
     entry_lower_bound := entry_lower_bound s;
     entry_upper_bound := entry_upper_bound s |}.

(** The state a successful [enter_gas_to_neo_trade] leaves. *)
Definition entered_gas_to_neo (rate : num) (s : Bot) : Bot :=
  {| neo_balance := neo_balance s + lit 10000 * rate;
     gas_balance := gas_balance s - lit 10000;
     active_trade_neo_to_gas := active_trade_neo_to_gas s;
     active_trade_gas_to_neo :=
       Some {| gn_entry_rate := rate; neo_amount := lit 10000 * rate |};
     entry_lower_bound := entry_lower_bound s;
     entry_upper_bound := entry_upper_bound s |}.

(** The state [check_exit_neo_to_gas] leaves when it exits [trade]. *)
Definition exited_neo_to_gas (trade : NeoToGasTrade) (rate : num) (s : Bot)
  : Bot :=
  {| neo_balance := neo_balance s + gas_amount trade * rate;
     gas_balance := gas_balance s - gas_amount trade;
     active_trade_neo_to_gas := None;
     active_trade_gas_to_neo := active_trade_gas_to_neo s;
     entry_lower_bound := entry_lower_bound s;
     entry_upper_bound := entry_upper_bound s |}.

(** The state [check_exit_gas_to_neo] leaves when it exits [trade]. *)
Definition exited_gas_to_neo (trade : GasToNeoTrade) (rate : num) (s : Bot)
  : Bot :=
  {| neo_balance := neo_balance s - neo_amount trade;
     gas_balance := gas_balance s + fquot (neo_amount trade) rate;
     active_trade_neo_to_gas := active_trade_neo_to_gas s;
     active_trade_gas_to_neo := None;
     entry_lower_bound := entry_lower_bound s;
     entry_upper_bound := entry_upper_bound s |}.

End Channels.

(** ** What a trade writes *)

Section Writes.
Context {A : Arith}.
Local Open Scope py_scope.



End Writes.

(** The two instances, by name. *)
Definition b64 (q : Q) : float := @lit Binary64 q.
Definition dec (q : Q) : Q := @lit Exact q.
Definition FloatBot : Type := @Bot Binary64.
Definition ExactBot : Type := @Bot Exact.

(* ===================================================================== *)
(** ** States of the worked scenario *)
(* ===================================================================== *)

Section Scenario.
Context {A : Arith}.
Local Open Scope py_scope.

Definition with_state (neo gas : num)
    (ng : option NeoToGasTrade) (gn : option GasToNeoTrade) : Bot :=
  {| neo_balance := neo;
     gas_balance := gas;
     active_trade_neo_to_gas := ng;
     active_trade_gas_to_neo := gn;
     entry_lower_bound := lit 0.2995;
     entry_upper_bound := lit 0.3005 |}.

(** Rates 0.3000, 0.3012, 0.2990 from 10000 NEO and 100000 GAS: the states
    the design document gives after each tick. *)
Definition scenario_tick1 : Bot :=
  with_state (lit 10000) (lit 100000)
    (Some {| ng_entry_rate := lit 0.3; gas_amount := lit 10000 |})
    (Some {| gn_entry_rate := lit 0.3; neo_amount := lit 3000 |}).

Definition scenario_tick2 : Bot :=
  with_state (lit 13012) (lit 90000)
    None
    (Some {| gn_entry_rate := lit 0.3; neo_amount := lit 3000 |}).

Definition scenario_tick3 : Bot :=
  with_state (lit 10012) (lit 90000 + fquot (lit 3000) (lit 0.299))
    None None.

(** A feed response with one NEO and one GAS record. *)
Definition prices (neo gas : num) : response :=
  Body (JArray [record "NEO" neo; record "GAS" gas]).

End Scenario.

(** The bot of the design document's example: 100 NEO, idle. *)
Definition poor_bot : FloatBot :=
  @set_neo_balance Binary64 (b64 100) (@init Binary64).

(** Equality of two states of the exact instance, up to the representation
    of the rationals. *)
Definition same_neo_to_gas (a b : option (@NeoToGasTrade Exact)) : Prop :=
  match a, b with
  | Some x, Some y =>
      (ng_entry_rate x == ng_entry_rate y /\ gas_amount x == gas_amount y)%Q
  | None, None => True
  | _, _ => False
  end.

Definition same_gas_to_neo (a b : option (@GasToNeoTrade Exact)) : Prop :=
  match a, b with
  | Some x, Some y =>
      (gn_entry_rate x == gn_entry_rate y /\ neo_amount x == neo_amount y)%Q
  | None, None => True
  | _, _ => False
  end.

Definition same_state (s t : ExactBot) : Prop :=
  (neo_balance s == neo_balance t)%Q /\
  (gas_balance s == gas_balance t)%Q /\
  same_neo_to_gas (active_trade_neo_to_gas s) (active_trade_neo_to_gas t) /\
  same_gas_to_neo (active_trade_gas_to_neo s) (active_trade_gas_to_neo t) /\
  (entry_lower_bound s == entry_lower_bound t)%Q /\
  (entry_upper_bound s == entry_upper_bound t)%Q.

(** The method returned, in a state equal to [t]. *)
Definition returns_state (o : outcome ExactBot unit) (t : ExactBot) : Prop :=
  match o with
  | Returned _ s => same_state s t
  | Raised _ _ => False
  end.

(* ===================================================================== *)
(** ** Accounting in exact arithmetic *)
(* ===================================================================== *)

Section Accounting.
Local Open Scope Q_scope.

(** What the open NEO -> GAS position put into [gas_balance], and what it
    took from [neo_balance]. *)
Definition held_gas (s : ExactBot) : Q :=
  match active_trade_neo_to_gas s with
  | Some trade => gas_amount trade
  | None => 0
  end.

Definition spent_neo (s : ExactBot) : Q :=
  match active_trade_neo_to_gas s with
  | Some _ => 3000
  | None => 0
  end.

(** What the open GAS -> NEO position put into [neo_balance], and what it
    took from [gas_balance]. *)
Definition held_neo (s : ExactBot) : Q :=
  match active_trade_gas_to_neo s with
  | Some trade => neo_amount trade
  | None => 0
  end.

Definition spent_gas (s : ExactBot) : Q :=
  match active_trade_gas_to_neo s with
  | Some _ => 10000
  | None => 0
  end.

(** The open positions are as an entry at a positive rate made them. *)
Definition positions_as_entered (s : ExactBot) : Prop :=
  match active_trade_neo_to_gas s with
  | Some trade =>
      0 < ng_entry_rate trade /\
      gas_amount trade == 3000 / ng_entry_rate trade
  | None => True
  end /\
  match active_trade_gas_to_neo s with
  | Some trade =>
      0 < gn_entry_rate trade /\
      neo_amount trade == 10000 * gn_entry_rate trade
  | None => True
  end.

(** The invariant of the ledger: the band lies above zero, the positions are
    as entered, and each balance, with the open positions undone, is at
    least its initial value. *)
Definition solvent (s : ExactBot) : Prop :=
  0 < entry_lower_bound s /\
  positions_as_entered s /\
  10000 <= neo_balance s - held_neo s + spent_neo s /\
  100000 <= gas_balance s - held_gas s + spent_gas s.

End Accounting.

(* ===================================================================== *)
(** ** Configuration read by [__init__] and by [debug.py] *)
(* ===================================================================== *)

Definition default_api_url : string :=
  "https://flamingo-us-1.b-cdn.net/flamingo/live-data/prices/latest".

Definition default_rpc_urls : list string :=
  ["https://mainnet1.neo.coz.io:443";
   "https://mainnet2.neo.coz.io:443";
   "https://mainnet3.neo.coz.io:443";
   "https://mainnet4.neo.coz.io:443"].

(** [os.getenv(key)] on the environment (as [load_dotenv] left it): [None]
    for a variable that is not set. *)
Definition getenv (env : gmap string string) (key : string) : option string :=
  env !! key.

(** [os.getenv(key, default)] *)
Definition getenv_default (env : gmap string string) (key dflt : string)
  : string :=
  default dflt (env !! key).

(** Truth value of a string in [if s:]. *)
Definition truthy (s : string) : bool :=
  match s with
  | EmptyString => false
  | String _ _ => true
  end.

(** [self.api_url], and [api_url] of [debug.py]. *)
Definition api_url (env : gmap string string) : string :=
  getenv_default env "FLAMINGO_API_URL" default_api_url.

(** [self.rpc_urls] *)
Definition rpc_urls (env : gmap string string) : list string :=
  match getenv env "NEO_RPC_URL" with
  | Some neo_rpc_url =>
      if truthy neo_rpc_url then [neo_rpc_url] else default_rpc_urls
  | None => default_rpc_urls
  end.

(* ===================================================================== *)
(** ** Notions for the further properties *)
(* ===================================================================== *)

Section Notions.
Context {A : Arith}.

(** The record counts for [get_rate]: its symbol is "NEO" or "GAS". *)
Definition relevant (d : gmap string pyval) : bool :=
  has_symbol "NEO" d || has_symbol "GAS" d.

(** The channel a step of [run] belongs to. *)
Definition op_channel (o : op) : channel :=
  match o with
  | Entry c _ => c
  | Exit c _ => c
  end.

(** The entry rate of every open position lies in the band. *)
Definition entered_in_band (s : Bot) : Prop :=
  match active_trade_neo_to_gas s with
  | Some trade =>
      fle (entry_lower_bound s) (ng_entry_rate trade) = true /\
      fle (ng_entry_rate trade) (entry_upper_bound s) = true
  | None => True
  end /\
  match active_trade_gas_to_neo s with
  | Some trade =>
      fle (entry_lower_bound s) (gn_entry_rate trade) = true /\
      fle (gn_entry_rate trade) (entry_upper_bound s) = true
  | None => True
  end.

End Notions.

(* ===================================================================== *)
(** * Properties *)
(* ===================================================================== *)

(** Unfolds a method down to the attributes. *)
Ltac run_method :=
  cbv [run_entry check_exit enter_trade check_entry insufficient is_open
       run_entry_neo_to_gas run_entry_gas_to_neo
       enter_neo_to_gas_trade enter_gas_to_neo_trade
       check_exit_neo_to_gas check_exit_gas_to_neo
       check_entry_neo_to_gas check_entry_gas_to_neo
       bind ret read write lift truediv] in *.

(** Unfolds the operations of the exact instance to those of [Q]. *)
Ltac exact_arith :=
  cbv [num lit fadd fsub fmul fquot fle flt fzero Exact] in *.

(** ** Literals *)

(** [lit] at binary64 reads the literals of the source and of the scenario
    as Rocq's own parser of floating-point literals does. *)
Lemma b64_literals :
  b64 0.2995 = 0.2995%float /\ b64 0.3005 = 0.3005%float /\
  b64 0.001 = 0.001%float /\ b64 3000 = 3000%float /\
  b64 10000 = 10000%float /\ b64 100000 = 100000%float /\
  b64 0.3 = 0.3%float /\ b64 0.3012 = 0.3012%float /\
  b64 0.299 = 0.299%float /\ b64 0.301 = 0.301%float /\
  b64 0.3009 = 0.3009%float.
Proof. repeat split; vm_compute; reflexivity. Qed.

(** ** Comparisons of the exact instance *)

Lemma exact_fle (a b : Q) : @fle Exact a b = true <-> (a <= b)%Q.
Proof. apply Qle_bool_iff. Qed.

Lemma exact_fle_false (a b : Q) : @fle Exact a b = false <-> (b < a)%Q.
Proof.
  simpl. split; intros H.
  - apply Qnot_le_lt. intros Hle. apply Qle_bool_iff in Hle. congruence.
  - destruct (Qle_bool a b) eqn:E; [|reflexivity].
    apply Qle_bool_iff in E. exfalso. apply (Qlt_not_le _ _ H E).
Qed.

Lemma exact_fzero (a : Q) : @fzero Exact a = true <-> (a == 0)%Q.
Proof. apply Qeq_bool_iff. Qed.

(** ** Entries and exits, case by case *)

Section Cases.
Context {A : Arith}.
Local Open Scope py_scope.

Lemma enter_neo_to_gas_trade_cases (rate : num) (s : Bot) :
  enter_neo_to_gas_trade rate s =
    if neo_balance s <? lit 3000 then Returned tt s
    else if fzero rate
         then Raised ZeroDivisionError
                (set_neo_balance (neo_balance s - lit 3000) s)
         else Returned tt (entered_neo_to_gas rate s).
Proof.
  run_method. destruct (flt _ _); [reflexivity|].
  destruct (fzero rate); reflexivity.
Qed.

Lemma enter_gas_to_neo_trade_cases (rate : num) (s : Bot) :
  enter_gas_to_neo_trade rate s =
    if gas_balance s <? lit 10000 then Returned tt s
    else Returned tt (entered_gas_to_neo rate s).
Proof.
  run_method. destruct (flt _ _); reflexivity.
Qed.

Lemma run_entry_neo_to_gas_cases (rate : num) (s : Bot) :
  run_entry_neo_to_gas rate s =
    match active_trade_neo_to_gas s with
    | Some _ => Returned tt s
    | None =>
        if (entry_lower_bound s <=? rate) && (rate <=? entry_upper_bound s)
        then enter_neo_to_gas_trade rate s
        else Returned tt s
    end.
Proof.
  cbv [run_entry_neo_to_gas check_entry_neo_to_gas bind read ret].
  destruct (active_trade_neo_to_gas s) eqn:E; [reflexivity|].
  rewrite ?E. destruct (_ && _); reflexivity.
Qed.

Lemma run_entry_gas_to_neo_cases (rate : num) (s : Bot) :
  run_entry_gas_to_neo rate s =
    match active_trade_gas_to_neo s with
    | Some _ => Returned tt s
    | None =>
        if (entry_lower_bound s <=? rate) && (rate <=? entry_upper_bound s)
        then enter_gas_to_neo_trade rate s
        else Returned tt s
    end.
Proof.
  cbv [run_entry_gas_to_neo check_entry_gas_to_neo bind read ret].
  destruct (active_trade_gas_to_neo s) eqn:E; [reflexivity|].
  rewrite ?E. destruct (_ && _); reflexivity.
Qed.

(** An iteration with a rate is its four steps. *)
Lemma run_iteration_ops (rate : num) (s : Bot) :
  run_iteration (Some rate) s = apply_ops (iteration_ops rate) s.
Proof.
  cbv [run_iteration iteration_ops apply_ops apply_op run_entry check_exit
       bind ret].
  destruct (run_entry_neo_to_gas rate s) as [[] s1|]; [|reflexivity].
  destruct (run_entry_gas_to_neo rate s1) as [[] s2|]; [|reflexivity].
  destruct (check_exit_neo_to_gas rate s2) as [[] s3|]; [|reflexivity].
  destruct (check_exit_gas_to_neo rate s3) as [[] s4|]; reflexivity.
Qed.

End Cases.

(** ** Exit conditions *)

Section Exits.
Context {A : Arith}.
Local Open Scope py_scope.

Lemma check_exit_neo_to_gas_cases (rate : num) (s : Bot)
    (trade : NeoToGasTrade) :
  active_trade_neo_to_gas s = Some trade ->
  check_exit_neo_to_gas rate s =
    if rate >=? ng_entry_rate trade + lit 0.001
    then Returned tt (exited_neo_to_gas trade rate s)
    else Returned tt s.
Proof.
  intros H. run_method. rewrite H.
  destruct (fle _ rate); reflexivity.
Qed.

Lemma check_exit_gas_to_neo_cases (rate : num) (s : Bot)
    (trade : GasToNeoTrade) :
  active_trade_gas_to_neo s = Some trade ->
  check_exit_gas_to_neo rate s =
    if rate <=? gn_entry_rate trade - lit 0.001
    then if fzero rate
         then Raised ZeroDivisionError s
         else Returned tt (exited_gas_to_neo trade rate s)
    else Returned tt s.
Proof.
  intros H. run_method. rewrite H.
  destruct (fle rate _); [|reflexivity].
  destruct (fzero rate); reflexivity.
Qed.

(** NEO -> GAS exits exactly when [rate >= entry_rate + 0.001]. *)
Lemma neo_to_gas_exits_iff (rate : num) (s : Bot) (trade : NeoToGasTrade) :
  active_trade_neo_to_gas s = Some trade ->
  (check_exit_neo_to_gas rate s
   = Returned tt (exited_neo_to_gas trade rate s) /\
   is_open NeoToGas (final (check_exit_neo_to_gas rate s)) = false)
  <-> (rate >=? ng_entry_rate trade + lit 0.001) = true.
Proof.
  intros H. rewrite (check_exit_neo_to_gas_cases rate s trade H).
  destruct (fle _ rate); simpl.
  - split; [reflexivity|]. intros _. split; reflexivity.
  - split; [|discriminate]. intros [_ E].
    rewrite H in E. discriminate.
Qed.

(** GAS -> NEO, at a rate other than zero, exits exactly when
    [rate <= entry_rate - 0.001]. *)
Lemma gas_to_neo_exits_iff (rate : num) (s : Bot) (trade : GasToNeoTrade) :
  active_trade_gas_to_neo s = Some trade ->
  fzero rate = false ->
  (check_exit_gas_to_neo rate s
   = Returned tt (exited_gas_to_neo trade rate s) /\
   is_open GasToNeo (final (check_exit_gas_to_neo rate s)) = false)
  <-> (rate <=? gn_entry_rate trade - lit 0.001) = true.
Proof.
  intros H Hz. rewrite (check_exit_gas_to_neo_cases rate s trade H), Hz.
  destruct (fle rate _); simpl.
  - split; [reflexivity|]. intros _. split; reflexivity.
  - split; [|discriminate]. intros [_ E].
    rewrite H in E. discriminate.
Qed.

End Exits.

(** ** Single position per channel *)

Section SinglePosition.
Context {A : Arith}.

Lemma open_channel_never_enters (c : channel) (rate : num) (t : Bot) :
  is_open c t = true ->
  check_entry c rate t = false /\ run_entry c rate t = Returned tt t.
Proof.
  destruct c; run_method; intros H; apply bool_decide_eq_true in H.
  - destruct (active_trade_neo_to_gas t); [split; reflexivity | congruence].
  - destruct (active_trade_gas_to_neo t); [split; reflexivity | congruence].
Qed.

Lemma successful_entry_opens (c : channel) (rate : num) (s s' : Bot) :
  insufficient c s = false ->
  enter_trade c rate s = Returned tt s' ->
  is_open c s' = true.
Proof.
  destruct c; run_method; intros Hf H; rewrite Hf in H;
    destruct (fzero rate); inversion H; subst; reflexivity.
Qed.

End SinglePosition.

(** ** Independence of the two channels *)

Section Frame.
Context {A : Arith}.

(** The other channel's steps leave a channel's position alone. *)
Lemma neo_to_gas_steps_frame (rate : num) (s : Bot) :
  active_trade_gas_to_neo (final (run_entry_neo_to_gas rate s))
    = active_trade_gas_to_neo s /\
  active_trade_gas_to_neo (final (check_exit_neo_to_gas rate s))
    = active_trade_gas_to_neo s.
Proof.
  split.
  - rewrite run_entry_neo_to_gas_cases.
    destruct (active_trade_neo_to_gas s); [reflexivity|].
    destruct (_ && _); [|reflexivity].
    rewrite enter_neo_to_gas_trade_cases.
    destruct (flt _ _); [reflexivity|].
    destruct (fzero rate); reflexivity.
  - destruct (active_trade_neo_to_gas s) as [t|] eqn:T.
    + rewrite (check_exit_neo_to_gas_cases rate s t T).
      destruct (fle _ rate); reflexivity.
    + cbv [check_exit_neo_to_gas bind read ret]. rewrite T. reflexivity.
Qed.

Lemma gas_to_neo_steps_frame (rate : num) (s : Bot) :
  active_trade_neo_to_gas (final (run_entry_gas_to_neo rate s))
    = active_trade_neo_to_gas s /\
  active_trade_neo_to_gas (final (check_exit_gas_to_neo rate s))
    = active_trade_neo_to_gas s.
Proof.
  split.
  - rewrite run_entry_gas_to_neo_cases.
    destruct (active_trade_gas_to_neo s); [reflexivity|].
    destruct (_ && _); [|reflexivity].
    rewrite enter_gas_to_neo_trade_cases.
    destruct (flt _ _); reflexivity.
  - destruct (active_trade_gas_to_neo s) as [t|] eqn:T.
    + rewrite (check_exit_gas_to_neo_cases rate s t T).
      destruct (fle rate _); [|reflexivity].
      destruct (fzero rate); reflexivity.
    + cbv [check_exit_gas_to_neo bind read ret]. rewrite T. reflexivity.
Qed.

(** An open channel stays open through every step of [run] but its own
    exit. *)
Lemma open_until_own_exit (c : channel) (o : op) (t : Bot) :
  is_open c t = true ->
  (forall rate, o <> Exit c rate) ->
  is_open c (final (apply_op o t)) = true.
Proof.
  intros Ho Hne. destruct o as [c' rate|c' rate]; cbn [apply_op].
  - destruct c, c'.
    + destruct (open_channel_never_enters NeoToGas rate t Ho) as [_ E].
      rewrite E. exact Ho.
    + cbv [is_open run_entry] in *.
      destruct (gas_to_neo_steps_frame rate t) as [E _]. rewrite E. exact Ho.
    + cbv [is_open run_entry] in *.
      destruct (neo_to_gas_steps_frame rate t) as [E _]. rewrite E. exact Ho.
    + destruct (open_channel_never_enters GasToNeo rate t Ho) as [_ E].
      rewrite E. exact Ho.
  - destruct c, c'.
    + exfalso. apply (Hne rate). reflexivity.
    + cbv [is_open check_exit] in *.
      destruct (gas_to_neo_steps_frame rate t) as [_ E]. rewrite E. exact Ho.
    + cbv [is_open check_exit] in *.
      destruct (neo_to_gas_steps_frame rate t) as [_ E]. rewrite E. exact Ho.
    + exfalso. apply (Hne rate). reflexivity.
Qed.

End Frame.

(** C1. Each channel holds at most one position: once an entry on a
    channel has succeeded (funds were sufficient and [enter_*_trade]
    returned), the channel is open; in every state in which it is open the
    entry condition is false at every rate and the entry block of [run]
    returns with both balances, both positions and the band untouched; and
    the channel stays open through every step of [run] but its own exit. *)
Theorem single_position_per_channel {A : Arith}
    (c : channel) (rate0 : num) (s s' : Bot) :
  insufficient c s = false ->
  enter_trade c rate0 s = Returned tt s' ->
  is_open c s' = true /\
  (forall (t : Bot) (rate : num),
     is_open c t = true ->
     check_entry c rate t = false /\ run_entry c rate t = Returned tt t) /\
  (forall (t : Bot) (o : op),
     is_open c t = true ->
     (forall rate, o <> Exit c rate) ->
     is_open c (final (apply_op o t)) = true).
Proof.
  intros Hf He. split; [|split].
  - exact (successful_entry_opens c rate0 s s' Hf He).
  - intros t rate. apply open_channel_never_enters.
  - intros t o. apply open_until_own_exit.
Qed.

Lemma single_position_per_channel_witness :
  @insufficient Binary64 NeoToGas init = false /\
  let s' := final (@enter_trade Binary64 NeoToGas (b64 0.3) init) in
  @is_open Binary64 NeoToGas s' = true /\
  (forall (t : FloatBot) (rate : float),
     @is_open Binary64 NeoToGas t = true ->
     @check_entry Binary64 NeoToGas rate t = false /\
     @run_entry Binary64 NeoToGas rate t = Returned tt t) /\
  (forall (t : FloatBot) (o : @op Binary64),
     @is_open Binary64 NeoToGas t = true ->
     (forall rate, o <> Exit NeoToGas rate) ->
     @is_open Binary64 NeoToGas (final (apply_op o t)) = true).
Proof.
  split; [reflexivity|].
  apply (@single_position_per_channel Binary64 NeoToGas (b64 0.3) init);
    reflexivity.
Defined.

(** ** Insufficient funds *)

(** C6. An entry attempted with insufficient funds changes nothing: when the
    spending balance is below the entry size (3000 NEO, 10000 GAS),
    [enter_*_trade] returns the attributes as they were, at every rate; an
    idle channel so stays idle, and the entry block of [run] changes nothing
    either. *)
Theorem insufficient_funds_noop {A : Arith}
    (c : channel) (rate : num) (s : Bot) :
  insufficient c s = true ->
  enter_trade c rate s = Returned tt s /\
  run_entry c rate s = Returned tt s /\
  is_open c (final (enter_trade c rate s)) = is_open c s.
Proof.
  intros H. assert (E : enter_trade c rate s = Returned tt s).
  { destruct c; run_method; rewrite H; reflexivity. }
  split; [exact E|]. split; [|rewrite E; reflexivity].
  destruct c; cbv [run_entry run_entry_neo_to_gas run_entry_gas_to_neo
                   bind read ret].
  - destruct (active_trade_neo_to_gas s); [reflexivity|].
    destruct (check_entry_neo_to_gas rate s); [exact E | reflexivity].
  - destruct (active_trade_gas_to_neo s); [reflexivity|].
    destruct (check_entry_gas_to_neo rate s); [exact E | reflexivity].
Qed.

Lemma insufficient_funds_noop_witness :
  @insufficient Binary64 NeoToGas poor_bot = true /\
  @enter_trade Binary64 NeoToGas (b64 0.3) poor_bot = Returned tt poor_bot /\
  @run_entry Binary64 NeoToGas (b64 0.3) poor_bot = Returned tt poor_bot /\
  @is_open Binary64 NeoToGas
     (final (@enter_trade Binary64 NeoToGas (b64 0.3) poor_bot))
  = @is_open Binary64 NeoToGas poor_bot.
Proof.
  split; [vm_compute; reflexivity|].
  apply (@insufficient_funds_noop Binary64 NeoToGas (b64 0.3) poor_bot).
  vm_compute; reflexivity.
Defined.

(** ** The entry band *)

Section Band.
Context {A : Arith}.

Lemma check_entry_idle (c : channel) (rate : num) (s : Bot) :
  is_open c s = false ->
  check_entry c rate s
  = fle (entry_lower_bound s) rate && fle rate (entry_upper_bound s).
Proof.
  destruct c; run_method; intros H; apply bool_decide_eq_false in H.
  - destruct (active_trade_neo_to_gas s); [|reflexivity].
    exfalso; apply H; discriminate.
  - destruct (active_trade_gas_to_neo s); [|reflexivity].
    exfalso; apply H; discriminate.
Qed.

(** With the entry condition true and funds sufficient, the entry block of
    [run] is the entry action, and it opens the channel unless the division
    raises. *)
Lemma run_entry_idle (c : channel) (rate : num) (s : Bot) :
  is_open c s = false ->
  check_entry c rate s = true ->
  run_entry c rate s = enter_trade c rate s.
Proof.
  destruct c; cbv [is_open run_entry check_entry run_entry_neo_to_gas
                   run_entry_gas_to_neo bind read ret];
    intros H E; apply bool_decide_eq_false in H.
  - destruct (active_trade_neo_to_gas s) eqn:T.
    + exfalso; apply H; discriminate.
    + rewrite E. reflexivity.
  - destruct (active_trade_gas_to_neo s) eqn:T.
    + exfalso; apply H; discriminate.
    + rewrite E. reflexivity.
Qed.

End Band.

(** C4. The entry band is inclusive at both ends.  For an idle channel the
    entry condition is exactly [lower <= rate <= upper].  Hence, for a band
    with [lower <= upper] whose bounds compare equal to themselves (every
    band of rationals; every binary64 band without NaN, the configured
    0.2995..0.3005 among them), the condition holds at a rate equal to
    either bound, and the entry block of [run] then performs the entry
    action. *)
Theorem entry_band_inclusive {A : Arith} (c : channel) (s : Bot) :
  is_open c s = false ->
  fle (entry_lower_bound s) (entry_upper_bound s) = true ->
  fle (entry_lower_bound s) (entry_lower_bound s) = true ->
  fle (entry_upper_bound s) (entry_upper_bound s) = true ->
  (forall rate : num,
      check_entry c rate s = true <->
      fle (entry_lower_bound s) rate = true /\
      fle rate (entry_upper_bound s) = true) /\
  check_entry c (entry_lower_bound s) s = true /\
  check_entry c (entry_upper_bound s) s = true /\
  run_entry c (entry_lower_bound s) s = enter_trade c (entry_lower_bound s) s /\
  run_entry c (entry_upper_bound s) s = enter_trade c (entry_upper_bound s) s.
Proof.
  intros Hidle Hlu Hll Huu.
  assert (Hl : check_entry c (entry_lower_bound s) s = true).
  { rewrite check_entry_idle by exact Hidle. rewrite Hll, Hlu. reflexivity. }
  assert (Hu : check_entry c (entry_upper_bound s) s = true).
  { rewrite check_entry_idle by exact Hidle. rewrite Hlu, Huu. reflexivity. }
  split; [|split; [exact Hl | split; [exact Hu | split]]].
  - intros rate. rewrite check_entry_idle by exact Hidle.
    apply andb_true_iff.
  - apply run_entry_idle; assumption.
  - apply run_entry_idle; assumption.
Qed.

Lemma entry_band_inclusive_witness :
  (@check_entry Binary64 NeoToGas (b64 0.2995) init = true /\
   @check_entry Binary64 NeoToGas (b64 0.3005) init = true /\
   @is_open Binary64 NeoToGas
      (final (@run_entry Binary64 NeoToGas (b64 0.2995) init)) = true /\
   @is_open Binary64 NeoToGas
      (final (@run_entry Binary64 NeoToGas (b64 0.3005) init)) = true) /\
  (@check_entry Exact GasToNeo (dec 0.2995) init = true /\
   @check_entry Exact GasToNeo (dec 0.3005) init = true /\
   @is_open Exact GasToNeo
      (final (@run_entry Exact GasToNeo (dec 0.2995) init)) = true /\
   @is_open Exact GasToNeo
      (final (@run_entry Exact GasToNeo (dec 0.3005) init)) = true).
Proof.
  split.
  - destruct (@entry_band_inclusive Binary64 NeoToGas init)
      as (_ & Hl & Hu & _ & _); try (vm_compute; reflexivity).
    split; [exact Hl|]. split; [exact Hu|].
    split; vm_compute; reflexivity.
  - destruct (@entry_band_inclusive Exact GasToNeo init)
      as (_ & Hl & Hu & _ & _); try (vm_compute; reflexivity).
    split; [exact Hl|]. split; [exact Hu|].
    split; vm_compute; reflexivity.
Defined.

(** The boundary of the design document: from an entry at 0.3000, NEO -> GAS
    exits at 0.3010 and not at 0.3009; GAS -> NEO exits at 0.2990 and not at
    0.2991.  In binary64 and in exact arithmetic. *)
Lemma exit_boundary_examples :
  (@is_open Binary64 NeoToGas
     (final (@check_exit Binary64 NeoToGas (b64 0.301) scenario_tick1)) = false /\
   @check_exit Binary64 NeoToGas (b64 0.3009) scenario_tick1
     = Returned tt scenario_tick1 /\
   @is_open Binary64 GasToNeo
     (final (@check_exit Binary64 GasToNeo (b64 0.299) scenario_tick1)) = false /\
   @check_exit Binary64 GasToNeo (b64 0.2991) scenario_tick1
     = Returned tt scenario_tick1) /\
  (@is_open Exact NeoToGas
     (final (@check_exit Exact NeoToGas (dec 0.301) scenario_tick1)) = false /\
   @check_exit Exact NeoToGas (dec 0.3009) scenario_tick1
     = Returned tt scenario_tick1 /\
   @is_open Exact GasToNeo
     (final (@check_exit Exact GasToNeo (dec 0.299) scenario_tick1)) = false /\
   @check_exit Exact GasToNeo (dec 0.2991) scenario_tick1
     = Returned tt scenario_tick1).
Proof. repeat split; reflexivity. Qed.

(** C3. The exit rule [rate <= entry_rate - 0.001] of GAS -> NEO fails at
    rate zero.  With the position opened at 0.3000, a rate of 0 satisfies the
    exit condition, and [check_exit_gas_to_neo] raises [ZeroDivisionError]
    from its division, before any attribute is written: the position stays
    open.  [run] reaches this when the feed prices GAS at 0, and ends with
    that exception.  In binary64 and in exact arithmetic. *)
Theorem gas_to_neo_exit_raises_at_zero_rate :
  (@fle Binary64 (b64 0) (@fsub Binary64 (b64 0.3) (b64 0.001)) = true /\
   @check_exit Binary64 GasToNeo (b64 0) scenario_tick1
     = Raised ZeroDivisionError scenario_tick1 /\
   @run Binary64 [@prices Binary64 (b64 1) (b64 0.3);
                  @prices Binary64 (b64 1) (b64 0)] init
     = Raised ZeroDivisionError scenario_tick1) /\
  (@fle Exact (dec 0) (@fsub Exact (dec 0.3) (dec 0.001)) = true /\
   @check_exit Exact GasToNeo (dec 0) scenario_tick1
     = Raised ZeroDivisionError scenario_tick1 /\
   exists s : ExactBot,
     @run Exact [@prices Exact (dec 1) (dec 0.3);
                 @prices Exact (dec 1) (dec 0)] init
       = Raised ZeroDivisionError s /\
     same_state s scenario_tick1).
Proof.
  split; (split; [reflexivity|]); (split; [reflexivity|]).
  - reflexivity.
  - eexists. split; [reflexivity|].
    repeat split; vm_compute; reflexivity.
Qed.

(** ** The worked scenario *)

(** C2. From 10000 NEO and 100000 GAS, both channels idle, the rates
    0.3000, 0.3012, 0.2990, one per iteration of [run]: after the first both
    channels have entered (balances 10000 and 100000, positions
    {0.3000, 10000 GAS} and {0.3000, 3000 NEO}); after the second only
    NEO -> GAS has exited (13012 and 90000); after the third GAS -> NEO has
    exited too (10012 and 90000 + 3000/0.2990) and both channels are idle.
    In binary64, value for value, and in exact arithmetic. *)
Theorem end_to_end_scenario :
  (@run_fetched Binary64 [Some (b64 0.3)] init
     = Returned tt scenario_tick1 /\
   @run_fetched Binary64 [Some (b64 0.3); Some (b64 0.3012)] init
     = Returned tt scenario_tick2 /\
   @run_fetched Binary64
      [Some (b64 0.3); Some (b64 0.3012); Some (b64 0.299)] init
     = Returned tt scenario_tick3) /\
  (returns_state
     (@run_fetched Exact [Some (dec 0.3)] init) scenario_tick1 /\
   returns_state
     (@run_fetched Exact [Some (dec 0.3); Some (dec 0.3012)] init)
     scenario_tick2 /\
   returns_state
     (@run_fetched Exact
        [Some (dec 0.3); Some (dec 0.3012); Some (dec 0.299)] init)
     scenario_tick3).
Proof.
  split.
  - repeat split; reflexivity.
  - repeat split; vm_compute; reflexivity.
Qed.

(** ** The price feed *)

Section FeedFacts.
Context {A : Arith}.

Lemma debug_get_rate_same (r : response) : Debug.get_rate r = get_rate r.
Proof. reflexivity. Qed.

Lemma neo_is_not_gas (v : pyval) :
  py_eq_str v "NEO" = true -> py_eq_str v "GAS" = false.
Proof.
  destruct v as [| |x|s|]; simpl; try discriminate.
  intros H. apply bool_decide_eq_true in H. subst s. reflexivity.
Qed.

(** One turn of the loop on a dict. *)
Lemma scan_item_dict (n g : pyval) (d : gmap string pyval) :
  scan_item (n, g) (Dict d) =
  Ok (if has_symbol "NEO" d then dict_get d "usd_price" else n,
      if has_symbol "GAS" d then dict_get d "usd_price" else g).
Proof.
  unfold scan_item, has_symbol; simpl.
  destruct (py_eq_str (dict_get d "symbol") "NEO") eqn:E.
  - rewrite (neo_is_not_gas _ E). reflexivity.
  - destruct (py_eq_str (dict_get d "symbol") "GAS"); reflexivity.
Qed.

(** The price kept for [sym] after [items], starting from [p]. *)
Lemma last_price_cons (sym : string) (d : gmap string pyval)
    (items : list (gmap string pyval)) (p : pyval) :
  match last (List.filter (has_symbol sym) (d :: items)) with
  | Some d' => dict_get d' "usd_price"
  | None => p
  end =
  match last (List.filter (has_symbol sym) items) with
  | Some d' => dict_get d' "usd_price"
  | None => if has_symbol sym d then dict_get d "usd_price" else p
  end.
Proof.
  simpl. destruct (has_symbol sym d); [|reflexivity].
  destruct (List.filter (has_symbol sym) items) as [|d' l] eqn:E.
  - reflexivity.
  - rewrite last_cons. destruct (last (d' :: l)) eqn:L; [reflexivity|].
    apply last_None in L. discriminate.
Qed.

Lemma scan_dicts (items : list (gmap string pyval)) (n g : pyval) :
  scan (map Dict items) (n, g) =
  Ok (match last (List.filter (has_symbol "NEO") items) with
      | Some d => dict_get d "usd_price"
      | None => n
      end,
      match last (List.filter (has_symbol "GAS") items) with
      | Some d => dict_get d "usd_price"
      | None => g
      end).
Proof.
  revert n g. induction items as [|d items IH]; intros n g.
  - reflexivity.
  - cbn [map scan]. rewrite scan_item_dict. cbn [rbind].
    rewrite IH, !last_price_cons. reflexivity.
Qed.

Lemma get_rate_array (items : list item) :
  get_rate (Body (JArray items)) =
  match scan items (PyNone, PyNone) with
  | Ok p => rate_of_prices (snd p) (fst p)
  | Err _ => None
  end.
Proof.
  unfold get_rate, get_rate_try, rate_of_prices; simpl.
  destruct (scan items (PyNone, PyNone)) as [[n g]|e]; simpl; [|reflexivity].
  destruct (is_none n); [reflexivity|].
  destruct (is_none g); [reflexivity|].
  destruct (py_truediv g n); reflexivity.
Qed.

(** A record that is not a dict ends the scan with an exception. *)
Lemma scan_not_dict (items : list item) (p : pyval * pyval) :
  In NotDict items -> exists e, scan items p = Err e.
Proof.
  revert p. induction items as [|it items IH]; intros p H.
  - destruct H.
  - destruct it as [d|].
    + destruct H as [H|H]; [discriminate|].
      destruct p as [n g]. cbn [scan]. rewrite scan_item_dict. cbn [rbind].
      apply IH, H.
    + exists AttributeError. reflexivity.
Qed.

(** Without a NEO record the scan leaves [neo_price] alone; without a GAS
    record it leaves [gas_price] alone. *)
Lemma scan_absent (items : list item) (n g : pyval) (p : pyval * pyval) :
  scan items (n, g) = Ok p ->
  (absent "NEO" items -> fst p = n) /\ (absent "GAS" items -> snd p = g).
Proof.
  revert n g. induction items as [|it items IH]; intros n g H.
  - inversion H; subst. split; reflexivity.
  - destruct it as [d|]; [|discriminate].
    cbn [scan] in H. rewrite scan_item_dict in H. cbn [rbind] in H.
    destruct (IH _ _ H) as [IHn IHg]. split; intros Hab.
    + rewrite IHn by (intros d' Hd'; apply Hab; right; exact Hd').
      rewrite (Hab d) by (left; reflexivity). reflexivity.
    + rewrite IHg by (intros d' Hd'; apply Hab; right; exact Hd').
      rewrite (Hab d) by (left; reflexivity). reflexivity.
Qed.

Lemma feed_fails_unavailable (r : response) :
  feed_fails r -> get_rate r = None.
Proof.
  intros H. destruct H as [|code| |data Hd|items Hi|sym items Hs Ha];
    try reflexivity.
  - destruct data as [items|keys|s|]; try reflexivity.
    + exfalso. apply (Hd items). reflexivity.
    + unfold get_rate, get_rate_try; simpl.
      destruct keys as [|k keys]; reflexivity.
    + unfold get_rate, get_rate_try; simpl.
      destruct (String.length s); reflexivity.
  - rewrite get_rate_array.
    destruct (scan_not_dict items (PyNone, PyNone) Hi) as [e E].
    rewrite E. reflexivity.
  - rewrite get_rate_array.
    destruct (scan items (PyNone, PyNone)) as [p|e] eqn:E; [|reflexivity].
    destruct (scan_absent items PyNone PyNone p E) as [Hn Hg].
    unfold rate_of_prices. destruct Hs; subst sym.
    + rewrite (Hn Ha). reflexivity.
    + rewrite (Hg Ha). destruct (is_none (fst p)); reflexivity.
Qed.

(** An iteration of [run] without a rate changes nothing. *)
Lemma unavailable_iteration_noop (r : response) (s : Bot) :
  get_rate r = None -> run [r] s = Returned tt s.
Proof.
  intros H. unfold run; simpl. rewrite H. reflexivity.
Qed.

End FeedFacts.

(** C7. Feed failure is isolated.  [get_rate] (in [main.py] and in
    [debug.py]) returns [None] when the transport fails, when the status is
    an error, when the body is not JSON or is not an array of records, and
    when no record carries "NEO" or no record carries "GAS"; and an iteration
    of [run] on such a response, as on every response for which [get_rate]
    returns [None], returns with both balances, both positions and the band
    as they were. *)
Theorem feed_failure_isolated {A : Arith} (r : response) (s : Bot) :
  feed_fails r ->
  get_rate r = None /\
  Debug.get_rate r = None /\
  run_iteration (get_rate r) s = Returned tt s /\
  run [r] s = Returned tt s /\
  (forall r' : response, get_rate r' = None -> run [r'] s = Returned tt s).
Proof.
  intros H. pose proof (feed_fails_unavailable r H) as E.
  split; [exact E|]. split; [exact E|]. split; [|split].
  - rewrite E. reflexivity.
  - apply unavailable_iteration_noop, E.
  - intros r'. apply unavailable_iteration_noop.
Qed.

Lemma feed_failure_isolated_witness :
  let r := Body (JArray [@record Binary64 "NEO" (b64 1)]) in
  feed_fails r /\
  @get_rate Binary64 r = None /\
  @Debug.get_rate Binary64 r = None /\
  @run_iteration Binary64 (get_rate r) scenario_tick1
    = Returned tt scenario_tick1 /\
  @run Binary64 [r] scenario_tick1 = Returned tt scenario_tick1 /\
  (forall r' : response,
     @get_rate Binary64 r' = None ->
     @run Binary64 [r'] scenario_tick1 = Returned tt scenario_tick1).
Proof.
  assert (H : feed_fails (Body (JArray [@record Binary64 "NEO" (b64 1)]))).
  { apply (symbol_absent "GAS"); [right; reflexivity|].
    intros d [Hd|[]]. inversion Hd; subst. vm_compute. reflexivity. }
  split; [exact H|].
  exact (@feed_failure_isolated Binary64 _ scenario_tick1 H).
Defined.

(** C8. The last record wins.  On an array of records the scan ends with
    the price of the last record carrying "NEO" and the price of the last
    record carrying "GAS"; when these two prices are the numbers [n] and
    [g], [get_rate] (in [main.py] and in [debug.py]) returns [g / n], or
    [None] when [n] is zero; and when one of the two is missing it returns
    [None]. *)
Theorem last_record_wins {A : Arith} (items : list (gmap string pyval)) :
  scan (map Dict items) (PyNone, PyNone)
    = Ok (last_price "NEO" items, last_price "GAS" items) /\
  (forall g n : num,
     last_price "GAS" items = PyNum g ->
     last_price "NEO" items = PyNum n ->
     get_rate (Body (JArray (map Dict items)))
       = (if fzero n then None else Some (fquot g n)) /\
     Debug.get_rate (Body (JArray (map Dict items)))
       = (if fzero n then None else Some (fquot g n))) /\
  (last_price "NEO" items = PyNone \/ last_price "GAS" items = PyNone ->
   get_rate (Body (JArray (map Dict items))) = None /\
   Debug.get_rate (Body (JArray (map Dict items))) = None).
Proof.
  pose proof (scan_dicts items PyNone PyNone) as E.
  assert (G : get_rate (Body (JArray (map Dict items)))
              = rate_of_prices (last_price "GAS" items)
                               (last_price "NEO" items)).
  { rewrite get_rate_array, E. reflexivity. }
  split; [exact E|]. split.
  - intros g n Hg Hn.
    assert (R : get_rate (Body (JArray (map Dict items)))
                = (if fzero n then None else Some (fquot g n))).
    { rewrite G, Hg, Hn.
      cbv [rate_of_prices is_none py_truediv as_number rbind truediv].
      destruct (fzero n); reflexivity. }
    split; exact R.
  - intros H.
    assert (R : get_rate (Body (JArray (map Dict items))) = None).
    { rewrite G. unfold rate_of_prices. destruct H as [H|H]; rewrite H.
      - reflexivity.
      - destruct (is_none _); reflexivity. }
    split; exact R.
Qed.

Lemma last_record_wins_witness :
  let items : list (gmap string (@pyval Binary64)) :=
    [<["symbol" := @PyStr Binary64 "NEO"]>
       (<["usd_price" := @PyNum Binary64 (b64 1)]> ∅);
     <["symbol" := @PyStr Binary64 "GAS"]>
       (<["usd_price" := @PyNum Binary64 (b64 0.3)]> ∅);
     <["symbol" := @PyStr Binary64 "GAS"]>
       (<["usd_price" := @PyNum Binary64 (b64 0.6)]> ∅);
     <["symbol" := @PyStr Binary64 "NEO"]>
       (<["usd_price" := @PyNum Binary64 (b64 2)]> ∅)] in
  @last_price Binary64 "GAS" items = @PyNum Binary64 (b64 0.6) /\
  @last_price Binary64 "NEO" items = @PyNum Binary64 (b64 2) /\
  @get_rate Binary64 (Body (JArray (map Dict items)))
    = Some (@fquot Binary64 (b64 0.6) (b64 2)) /\
  @Debug.get_rate Binary64 (Body (JArray (map Dict items)))
    = Some (@fquot Binary64 (b64 0.6) (b64 2)).
Proof.
  cbv zeta. split; [reflexivity|]. split; [reflexivity|].
  refine (proj1 (proj2 (@last_record_wins Binary64 _)) (b64 0.6) (b64 2) _ _);
    reflexivity.
Defined.

(** Duplicates: the later record decides. *)
Lemma last_record_wins_example :
  @get_rate Binary64
    (Body (JArray [@record Binary64 "NEO" (b64 1); @record Binary64 "GAS" (b64 0.3);
                   @record Binary64 "FLM" (b64 0.05);
                   @record Binary64 "GAS" (b64 0.6); @record Binary64 "NEO" (b64 2)]))
  = Some (b64 0.3).
Proof. reflexivity. Qed.

(** ** What a successful [get_rate] returns *)

Section Rate.
Context {A : Arith}.



End Rate.


(** ** The sign of a binary64 quotient *)

Section Sign.
Local Open Scope Z_scope.







End Sign.




(** ** The ledger stays solvent (exact arithmetic) *)

Section Solvency.
Local Open Scope Q_scope.

Lemma Qdiv_pos (a b : Q) : 0 < a -> 0 < b -> 0 < a / b.
Proof.
  intros Ha Hb. apply Qlt_shift_div_l; [exact Hb | lra].
Qed.

(** Selling back at a rate above the entry rate returns at least the 3000
    NEO spent. *)
Lemma neo_back (entry rate held : Q) :
  0 < entry -> entry + 0.001 <= rate -> held == 3000 / entry ->
  0 < held /\ 3000 <= held * rate.
Proof.
  intros He Hr Hh.
  assert (E : held * entry == 3000) by (rewrite Hh; field; lra).
  assert (P : 0 < held) by (rewrite Hh; apply Qdiv_pos; lra).
  split; [exact P | nra].
Qed.

(** Selling back at a positive rate below the entry rate returns at least
    the 10000 GAS spent. *)
Lemma gas_back (entry rate held : Q) :
  0 < rate -> rate <= entry - 0.001 -> held == 10000 * entry ->
  0 < held /\ 10000 <= held / rate.
Proof.
  intros Hr He Hh. split; [nra|].
  apply Qle_shift_div_l; [exact Hr | nra].
Qed.

Lemma solvent_init : solvent (@init Exact).
Proof.
  unfold solvent, positions_as_entered, held_neo, held_gas, spent_neo,
    spent_gas; simpl. repeat split; lra.
Qed.

Lemma solvent_entry_neo_to_gas (rate : Q) (s : ExactBot) :
  solvent s ->
  exists s', @run_entry_neo_to_gas Exact rate s = Returned tt s' /\ solvent s'.
Proof.
  intros Hs. rewrite run_entry_neo_to_gas_cases.
  destruct (active_trade_neo_to_gas s) as [t|] eqn:T; [eauto|].
  destruct (_ && _) eqn:B; [|eauto].
  apply andb_true_iff in B as [Bl Bu].
  apply exact_fle in Bl, Bu.
  rewrite enter_neo_to_gas_trade_cases.
  destruct (flt _ _) eqn:F; [eauto|].
  destruct Hs as (Hl & [Hng Hgn] & Hneo & Hgas).
  assert (Hr : 0 < rate) by (exact_arith; lra).
  destruct (@fzero Exact rate) eqn:Z.
  { apply exact_fzero in Z. lra. }
  eexists. split; [reflexivity|].
  unfold solvent, positions_as_entered, held_neo, held_gas, spent_neo,
    spent_gas, entered_neo_to_gas in *.
  rewrite T in *. cbn [neo_balance gas_balance active_trade_neo_to_gas
    active_trade_gas_to_neo entry_lower_bound entry_upper_bound
    ng_entry_rate gas_amount].
  exact_arith.
  split; [exact Hl|]. split; [split; [split; [exact Hr | reflexivity] | exact Hgn]|].
  set (X := 3000 / rate) in *.
  split; lra.
Qed.

Lemma solvent_entry_gas_to_neo (rate : Q) (s : ExactBot) :
  solvent s ->
  exists s', @run_entry_gas_to_neo Exact rate s = Returned tt s' /\ solvent s'.
Proof.
  intros Hs. rewrite run_entry_gas_to_neo_cases.
  destruct (active_trade_gas_to_neo s) as [t|] eqn:T; [eauto|].
  destruct (_ && _) eqn:B; [|eauto].
  apply andb_true_iff in B as [Bl Bu].
  apply exact_fle in Bl, Bu.
  rewrite enter_gas_to_neo_trade_cases.
  destruct (flt _ _) eqn:F; [eauto|].
  destruct Hs as (Hl & [Hng Hgn] & Hneo & Hgas).
  assert (Hr : 0 < rate) by (exact_arith; lra).
  eexists. split; [reflexivity|].
  unfold solvent, positions_as_entered, held_neo, held_gas, spent_neo,
    spent_gas, entered_gas_to_neo in *.
  rewrite T in *. cbn [neo_balance gas_balance active_trade_neo_to_gas
    active_trade_gas_to_neo entry_lower_bound entry_upper_bound
    gn_entry_rate neo_amount].
  exact_arith.
  split; [exact Hl|].
  split; [split; [exact Hng | split; [exact Hr | reflexivity]]|].
  split; lra.
Qed.

Lemma solvent_exit_neo_to_gas (rate : Q) (s : ExactBot) :
  solvent s ->
  exists s', @check_exit_neo_to_gas Exact rate s = Returned tt s' /\ solvent s'.
Proof.
  intros Hs.
  destruct (active_trade_neo_to_gas s) as [t|] eqn:T.
  - rewrite (@check_exit_neo_to_gas_cases Exact rate s t T).
    destruct (@fle Exact _ rate) eqn:C; [|eauto].
    apply exact_fle in C.
    destruct Hs as (Hl & [Hng Hgn] & Hneo & Hgas).
    eexists. split; [reflexivity|].
    unfold solvent, positions_as_entered, held_neo, held_gas, spent_neo,
      spent_gas, exited_neo_to_gas in *.
    rewrite T in *. cbn [neo_balance gas_balance active_trade_neo_to_gas
      active_trade_gas_to_neo entry_lower_bound entry_upper_bound].
    exact_arith. destruct Hng as [He Hh].
    destruct (neo_back _ rate _ He C Hh) as [P B].
    split; [exact Hl|]. split; [split; [exact I | exact Hgn]|].
    split; lra.
  - exists s. split; [|exact Hs].
    cbv [check_exit_neo_to_gas bind read ret]. rewrite T. reflexivity.
Qed.

Lemma solvent_exit_gas_to_neo (rate : Q) (s : ExactBot) :
  0 < rate ->
  solvent s ->
  exists s', @check_exit_gas_to_neo Exact rate s = Returned tt s' /\ solvent s'.
Proof.
  intros Hr Hs.
  destruct (active_trade_gas_to_neo s) as [t|] eqn:T.
  - rewrite (@check_exit_gas_to_neo_cases Exact rate s t T).
    destruct (@fle Exact rate _) eqn:C; [|eauto].
    apply exact_fle in C.
    destruct (@fzero Exact rate) eqn:Z.
    { apply exact_fzero in Z. lra. }
    destruct Hs as (Hl & [Hng Hgn] & Hneo & Hgas).
    eexists. split; [reflexivity|].
    unfold solvent, positions_as_entered, held_neo, held_gas, spent_neo,
      spent_gas, exited_gas_to_neo in *.
    rewrite T in *. cbn [neo_balance gas_balance active_trade_neo_to_gas
      active_trade_gas_to_neo entry_lower_bound entry_upper_bound].
    exact_arith. destruct Hgn as [He Hh].
    destruct (gas_back _ rate _ Hr C Hh) as [P B].
    split; [exact Hl|]. split; [split; [exact Hng | exact I]|].
    set (Y := neo_amount t / rate) in *.
    split; lra.
  - exists s. split; [|exact Hs].
    cbv [check_exit_gas_to_neo bind read ret]. rewrite T. reflexivity.
Qed.

Lemma solvent_step (o : @op Exact) (s : ExactBot) :
  0 < @op_rate Exact o ->
  solvent s ->
  exists s', apply_op o s = Returned tt s' /\ solvent s'.
Proof.
  destruct o as [[|] rate|[|] rate]; simpl; intros Hr Hs.
  - apply solvent_entry_neo_to_gas, Hs.
  - apply solvent_entry_gas_to_neo, Hs.
  - apply solvent_exit_neo_to_gas, Hs.
  - apply solvent_exit_gas_to_neo; assumption.
Qed.

Lemma solvent_steps (ops : list (@op Exact)) (s : ExactBot) :
  Forall (fun o : @op Exact => 0 < @op_rate Exact o) ops ->
  solvent s ->
  exists s', apply_ops ops s = Returned tt s' /\ solvent s'.
Proof.
  intros H. revert s. induction H as [|o ops Ho _ IH]; intros s Hs.
  - exists s. split; [reflexivity | exact Hs].
  - destruct (solvent_step o s Ho Hs) as (s1 & E1 & H1).
    destruct (IH s1 H1) as (s' & E' & H').
    exists s'. split; [|exact H'].
    cbn [apply_ops]. unfold bind. rewrite E1. exact E'.
Qed.

Lemma solvent_nonnegative (s : ExactBot) :
  solvent s -> 7000 <= neo_balance s /\ 90000 <= gas_balance s.
Proof.
  intros (Hl & [Hng Hgn] & Hneo & Hgas).
  unfold held_neo, held_gas, spent_neo, spent_gas in *.
  destruct (active_trade_neo_to_gas s) as [a|];
    destruct (active_trade_gas_to_neo s) as [b|];
    repeat match goal with
           | H : _ /\ _ |- _ => destruct H
           end;
    try match goal with
        | He : 0 < ng_entry_rate ?a, Hh : gas_amount ?a == _ |- _ =>
            assert (0 < gas_amount a) by (rewrite Hh; apply Qdiv_pos; lra)
        end;
    split; nra.
Qed.

End Solvency.

(** The balances in exact arithmetic.  From the initial 10000 NEO and
    100000 GAS, every sequence of entry and exit steps of [run], on either
    channel and in any order, at positive rates, returns (no step raises)
    and leaves [neo_balance] at 7000 or more and [gas_balance] at 90000 or
    more.  This is a fact of the rationals, not of the floats of the
    program: see [binary64_breaks_exact_bound]. *)
Lemma exact_balances_bounded (ops : list (@op Exact)) :
  Forall (fun o : @op Exact => (0 < @op_rate Exact o)%Q) ops ->
  exists s' : ExactBot,
    apply_ops ops init = Returned tt s' /\
    (7000 <= neo_balance s')%Q /\ (90000 <= gas_balance s')%Q.
Proof.
  intros H.
  destruct (solvent_steps ops init H solvent_init) as (s' & E & Hs).
  destruct (solvent_nonnegative s' Hs) as [Hn Hg].
  exists s'. split; [exact E|]. split; lra.
Qed.

(** In binary64 the bound of [exact_balances_bounded] fails: after the
    entry of NEO -> GAS at 0.3, the entry of GAS -> NEO at 0.29953 and its
    exit at 0.29753, [neo_balance] is 7000 less one unit in the last place
    (adding and then subtracting the same [neo_amount] loses it).  The
    invariant the exact bound rests on is therefore not one of the floats,
    and each round trip of GAS -> NEO can lose one more such unit. *)
Lemma binary64_breaks_exact_bound :
  let ops := [@Entry Binary64 NeoToGas (b64 0.3);
              @Entry Binary64 GasToNeo (b64 0.29953);
              @Exit Binary64 GasToNeo (b64 0.29753)] in
  let s' : FloatBot := final (@apply_ops Binary64 ops init) in
  @apply_ops Binary64 ops init = Returned tt s' /\
  @active_trade_gas_to_neo Binary64 s' = None /\
  @neo_balance Binary64 s' = 6999.9999999999991%float /\
  @flt Binary64 (@neo_balance Binary64 s') (b64 7000) = true /\
  @fle Binary64 (b64 0) (@neo_balance Binary64 s') = true.
Proof. cbv zeta. repeat split; reflexivity. Qed.

(** ** Trades write both balances *)

(** The sign of a rate is never checked: with the GAS -> NEO position
    opened at 0.3000, a rate of -1 meets the exit condition, and the exit
    takes 3000 from both balances.  In binary64 and in exact arithmetic. *)
Lemma exit_at_negative_rate_debits_both :
  (let s' := final (@check_exit Binary64 GasToNeo (b64 (-1)) scenario_tick1) in
   @action Binary64 GasToNeo (b64 (-1)) scenario_tick1 s' /\
   @moves_both Binary64 scenario_tick1 s' = false /\
   neo_balance s' = b64 7000 /\ gas_balance s' = b64 97000) /\
  (let s' := final (@check_exit Exact GasToNeo (dec (-1)) scenario_tick1) in
   @action Exact GasToNeo (dec (-1)) scenario_tick1 s' /\
   @moves_both Exact scenario_tick1 s' = false /\
   (neo_balance s' == 7000)%Q /\ (gas_balance s' == 97000)%Q).
Proof.
  split; cbv zeta.
  - split; [apply exit_action; reflexivity|]. repeat split; reflexivity.
  - split; [apply exit_action; reflexivity|].
    repeat split; vm_compute; reflexivity.
Qed.




(** ** Remarks on binary64 *)

(** Binary64 is not exact arithmetic: two positive prices can give the rate
    0 by underflow, and a balance of 1e20 absorbs a debit of 3000. *)
Lemma binary64_rounding_examples :
  @get_rate Binary64 (@prices Binary64 1e300%float 1e-300%float)
    = Some (b64 0) /\
  (let s : FloatBot := @set_neo_balance Binary64 1e20%float init in
   let s' : FloatBot := @entered_neo_to_gas Binary64 (b64 0.3) s in
   @enter_trade Binary64 NeoToGas (b64 0.3) s = Returned tt s' /\
   @neo_balance Binary64 s' = @neo_balance Binary64 s /\
   @moves_both Binary64 s s' = false).
Proof. repeat split; reflexivity. Qed.

(* ===================================================================== *)
(** * Further properties *)
(* ===================================================================== *)

(** ** What [run] can raise, and what it never changes *)

Section Steps.
Context {A : Arith}.

(** A step of [run] returns, or raises [ZeroDivisionError] at a zero
    rate. *)
Lemma apply_op_outcome (o : op) (s : Bot) :
  (exists s', apply_op o s = Returned tt s') \/
  (fzero (op_rate o) = true /\
   exists s', apply_op o s = Raised ZeroDivisionError s').
Proof.
  destruct o as [[|] rate|[|] rate]; cbn [apply_op op_rate run_entry check_exit].
  - rewrite run_entry_neo_to_gas_cases.
    destruct (active_trade_neo_to_gas s); [eauto|].
    destruct (_ && _); [|eauto].
    rewrite enter_neo_to_gas_trade_cases.
    destruct (flt _ _); [eauto|].
    destruct (fzero rate); eauto.
  - rewrite run_entry_gas_to_neo_cases.
    destruct (active_trade_gas_to_neo s); [eauto|].
    destruct (_ && _); [|eauto].
    rewrite enter_gas_to_neo_trade_cases.
    destruct (flt _ _); eauto.
  - destruct (active_trade_neo_to_gas s) as [t|] eqn:T.
    + rewrite (check_exit_neo_to_gas_cases rate s t T).
      destruct (fle _ rate); eauto.
    + left. exists s.
      cbv [check_exit_neo_to_gas bind read ret]. rewrite T. reflexivity.
  - destruct (active_trade_gas_to_neo s) as [t|] eqn:T.
    + rewrite (check_exit_gas_to_neo_cases rate s t T).
      destruct (fle rate _); [|eauto].
      destruct (fzero rate); eauto.
    + left. exists s.
      cbv [check_exit_gas_to_neo bind read ret]. rewrite T. reflexivity.
Qed.

Lemma apply_ops_raised (ops : list op) (s s' : Bot) (e : exn) :
  apply_ops ops s = Raised e s' ->
  e = ZeroDivisionError /\ exists o, In o ops /\ fzero (op_rate o) = true.
Proof.
  revert s. induction ops as [|o ops IH]; intros s H.
  - discriminate.
  - cbn [apply_ops] in H. unfold bind in H.
    destruct (apply_op_outcome o s) as [[s1 E]|[Z [s1 E]]]; rewrite E in H.
    + destruct (IH s1 H) as [He [o' [Hin Hz]]].
      split; [exact He|]. exists o'. split; [right; exact Hin | exact Hz].
    + inversion H; subst. split; [reflexivity|].
      exists o. split; [left; reflexivity | exact Z].
Qed.

Lemma run_iteration_raised (rate : num) (s s' : Bot) (e : exn) :
  run_iteration (Some rate) s = Raised e s' ->
  e = ZeroDivisionError /\ fzero rate = true.
Proof.
  rewrite run_iteration_ops. intros H.
  destruct (apply_ops_raised _ _ _ _ H) as [He [o [Hin Hz]]].
  split; [exact He|].
  cbv [iteration_ops] in Hin. simpl in Hin.
  destruct Hin as [<-|[<-|[<-|[<-|[]]]]]; exact Hz.
Qed.

Lemma run_fetched_raised (fetched : list (option num)) (s s' : Bot) (e : exn) :
  run_fetched fetched s = Raised e s' ->
  e = ZeroDivisionError /\
  exists rate, In (Some rate) fetched /\ fzero rate = true.
Proof.
  revert s. induction fetched as [|r rest IH]; intros s H.
  - discriminate.
  - cbn [run_fetched] in H. unfold bind in H.
    destruct (run_iteration r s) as [[] s1|e1 s1] eqn:E.
    + destruct (IH s1 H) as [He [rate [Hin Hz]]].
      split; [exact He|]. exists rate. split; [right; exact Hin | exact Hz].
    + inversion H; subst. destruct r as [rate|]; [|discriminate].
      destruct (run_iteration_raised rate s s' e E) as [He Hz].
      split; [exact He|]. exists rate. split; [left; reflexivity | exact Hz].
Qed.

(** The band of a step's outcome is the band it started with. *)
Lemma apply_op_band (o : op) (s : Bot) :
  entry_lower_bound (final (apply_op o s)) = entry_lower_bound s /\
  entry_upper_bound (final (apply_op o s)) = entry_upper_bound s.
Proof.
  destruct o as [[|] rate|[|] rate]; cbn [apply_op run_entry check_exit].
  - rewrite run_entry_neo_to_gas_cases.
    destruct (active_trade_neo_to_gas s); [split; reflexivity|].
    destruct (_ && _); [|split; reflexivity].
    rewrite enter_neo_to_gas_trade_cases.
    destruct (flt _ _); [split; reflexivity|].
    destruct (fzero rate); split; reflexivity.
  - rewrite run_entry_gas_to_neo_cases.
    destruct (active_trade_gas_to_neo s); [split; reflexivity|].
    destruct (_ && _); [|split; reflexivity].
    rewrite enter_gas_to_neo_trade_cases.
    destruct (flt _ _); split; reflexivity.
  - destruct (active_trade_neo_to_gas s) as [t|] eqn:T.
    + rewrite (check_exit_neo_to_gas_cases rate s t T).
      destruct (fle _ rate); split; reflexivity.
    + cbv [check_exit_neo_to_gas bind read ret]. rewrite T.
      split; reflexivity.
  - destruct (active_trade_gas_to_neo s) as [t|] eqn:T.
    + rewrite (check_exit_gas_to_neo_cases rate s t T).
      destruct (fle rate _); [|split; reflexivity].
      destruct (fzero rate); split; reflexivity.
    + cbv [check_exit_gas_to_neo bind read ret]. rewrite T.
      split; reflexivity.
Qed.

Lemma apply_ops_band (ops : list op) (s : Bot) :
  entry_lower_bound (final (apply_ops ops s)) = entry_lower_bound s /\
  entry_upper_bound (final (apply_ops ops s)) = entry_upper_bound s.
Proof.
  revert s. induction ops as [|o ops IH]; intros s.
  - split; reflexivity.
  - cbn [apply_ops]. unfold bind.
    destruct (apply_op_band o s) as [Hl Hu].
    destruct (apply_op o s) as [[] s1|e s1]; cbn [final] in *.
    + destruct (IH s1) as [Hl' Hu']. split; congruence.
    + split; assumption.
Qed.

Lemma run_fetched_band (fetched : list (option num)) (s : Bot) :
  entry_lower_bound (final (run_fetched fetched s)) = entry_lower_bound s /\
  entry_upper_bound (final (run_fetched fetched s)) = entry_upper_bound s.
Proof.
  revert s. induction fetched as [|r rest IH]; intros s.
  - split; reflexivity.
  - cbn [run_fetched]. unfold bind.
    assert (B : entry_lower_bound (final (run_iteration r s))
                  = entry_lower_bound s /\
                entry_upper_bound (final (run_iteration r s))
                  = entry_upper_bound s).
    { destruct r as [rate|]; [|split; reflexivity].
      rewrite run_iteration_ops. apply apply_ops_band. }
    destruct B as [Hl Hu].
    destruct (run_iteration r s) as [[] s1|e s1]; cbn [final] in *.
    + destruct (IH s1) as [Hl' Hu']. split; congruence.
    + split; assumption.
Qed.

End Steps.

(** X1. [run] raises nothing but [ZeroDivisionError], and only when
    [get_rate] has returned a rate equal to zero on one of the responses;
    on a feed without such a response it returns. *)
Theorem run_raises_only_on_zero_rate {A : Arith}
    (feed : list response) (s s' : Bot) (e : exn) :
  run feed s = Raised e s' ->
  e = ZeroDivisionError /\
  exists (r : response) (rate : num),
    In r feed /\ get_rate r = Some rate /\ fzero rate = true.
Proof.
  unfold run. intros H.
  destruct (run_fetched_raised _ _ _ _ H) as [He [rate [Hin Hz]]].
  split; [exact He|].
  apply in_map_iff in Hin as [r [Hr Hin]].
  exists r, rate. split; [exact Hin|]. split; [exact Hr | exact Hz].
Qed.

Lemma run_raises_only_on_zero_rate_witness :
  let feed := [@prices Binary64 (b64 1) (b64 0.3);
               @prices Binary64 (b64 1) (b64 0)] in
  @run Binary64 feed init = Raised ZeroDivisionError scenario_tick1 /\
  (ZeroDivisionError = ZeroDivisionError /\
   exists (r : response) (rate : float),
     In r feed /\ @get_rate Binary64 r = Some rate /\
     @fzero Binary64 rate = true).
Proof.
  assert (H : @run Binary64 [@prices Binary64 (b64 1) (b64 0.3);
                             @prices Binary64 (b64 1) (b64 0)] init
              = Raised ZeroDivisionError scenario_tick1) by reflexivity.
  split; [exact H|].
  exact (@run_raises_only_on_zero_rate Binary64 _ _ _ _ H).
Defined.

(** X2. [run] never changes the entry band: whatever the feed, and whether
    it returns or raises, [entry_lower_bound] and [entry_upper_bound] end
    as they started. *)
Theorem run_keeps_band {A : Arith} (feed : list response) (s : Bot) :
  entry_lower_bound (final (run feed s)) = entry_lower_bound s /\
  entry_upper_bound (final (run feed s)) = entry_upper_bound s.
Proof.
  unfold run. apply run_fetched_band.
Qed.

(** ** Positions are entered within the band *)

Section InBand.
Context {A : Arith}.

Lemma apply_op_in_band (o : op) (s : Bot) :
  entered_in_band s -> entered_in_band (final (apply_op o s)).
Proof.
  unfold entered_in_band. intros [Hn Hg].
  destruct o as [[|] rate|[|] rate]; cbn [apply_op run_entry check_exit].
  - rewrite run_entry_neo_to_gas_cases.
    destruct (active_trade_neo_to_gas s) eqn:T;
      [simpl; rewrite T; tauto|].
    destruct (_ && _) eqn:B; [|simpl; rewrite T; tauto].
    apply andb_true_iff in B.
    rewrite enter_neo_to_gas_trade_cases.
    destruct (flt _ _); [simpl; rewrite T; tauto|].
    destruct (fzero rate); simpl; rewrite ?T; tauto.
  - rewrite run_entry_gas_to_neo_cases.
    destruct (active_trade_gas_to_neo s) eqn:T;
      [simpl; rewrite T; tauto|].
    destruct (_ && _) eqn:B; [|simpl; rewrite T; tauto].
    apply andb_true_iff in B.
    rewrite enter_gas_to_neo_trade_cases.
    destruct (flt _ _); simpl; rewrite ?T; tauto.
  - destruct (active_trade_neo_to_gas s) as [t|] eqn:T.
    + rewrite (check_exit_neo_to_gas_cases rate s t T).
      destruct (fle _ rate); simpl; rewrite ?T; tauto.
    + cbv [check_exit_neo_to_gas bind read ret]. rewrite T.
      simpl; rewrite T; tauto.
  - destruct (active_trade_gas_to_neo s) as [t|] eqn:T.
    + rewrite (check_exit_gas_to_neo_cases rate s t T).
      destruct (fle rate _); [|simpl; rewrite T; tauto].
      destruct (fzero rate); simpl; rewrite ?T; tauto.
    + cbv [check_exit_gas_to_neo bind read ret]. rewrite T.
      simpl; rewrite T; tauto.
Qed.

Lemma apply_ops_in_band (ops : list op) (s : Bot) :
  entered_in_band s -> entered_in_band (final (apply_ops ops s)).
Proof.
  revert s. induction ops as [|o ops IH]; intros s H.
  - exact H.
  - cbn [apply_ops]. unfold bind.
    pose proof (apply_op_in_band o s H) as H1.
    destruct (apply_op o s) as [[] s1|e s1]; cbn [final] in *.
    + apply IH, H1.
    + exact H1.
Qed.

Lemma run_fetched_in_band (fetched : list (option num)) (s : Bot) :
  entered_in_band s -> entered_in_band (final (run_fetched fetched s)).
Proof.
  revert s. induction fetched as [|r rest IH]; intros s H.
  - exact H.
  - cbn [run_fetched]. unfold bind.
    assert (H1 : entered_in_band (final (run_iteration r s))).
    { destruct r as [rate|]; [|exact H].
      rewrite run_iteration_ops. apply apply_ops_in_band, H. }
    destruct (run_iteration r s) as [[] s1|e s1]; cbn [final] in *.
    + apply IH, H1.
    + exact H1.
Qed.

End InBand.

(** X4. Every position [run] holds was entered within the band: from the
    state [__init__] leaves, whatever the feed, the [entry_rate] of each
    open position satisfies [entry_lower_bound <= entry_rate <=
    entry_upper_bound], when [run] returns as when it raises.  In any
    arithmetic, binary64 included. *)
Theorem positions_entered_in_band {A : Arith} (feed : list response) :
  entered_in_band (final (run feed init)).
Proof.
  unfold run. apply run_fetched_in_band. split; exact I.
Qed.

(** ** More on the price feed *)

Section FeedMore.
Context {A : Arith}.

Lemma filter_relevant (sym : string) (items : list (gmap string pyval)) :
  sym = "NEO" \/ sym = "GAS" ->
  List.filter (has_symbol sym) (List.filter relevant items)
  = List.filter (has_symbol sym) items.
Proof.
  intros Hs. induction items as [|d items IH]; [reflexivity|].
  cbn [List.filter]. unfold relevant at 1.
  destruct (has_symbol sym d) eqn:E.
  - assert (R : has_symbol "NEO" d || has_symbol "GAS" d = true).
    { destruct Hs; subst sym; rewrite E;
        [reflexivity | apply orb_true_r]. }
    rewrite R. cbn [List.filter]. rewrite E, IH. reflexivity.
  - destruct (has_symbol "NEO" d || has_symbol "GAS" d); [|exact IH].
    cbn [List.filter]. rewrite E. exact IH.
Qed.

Lemma last_price_relevant (sym : string) (items : list (gmap string pyval)) :
  sym = "NEO" \/ sym = "GAS" ->
  last_price sym (List.filter relevant items) = last_price sym items.
Proof.
  intros Hs. unfold last_price. rewrite (filter_relevant sym items Hs).
  reflexivity.
Qed.

Lemma get_rate_dicts (items : list (gmap string pyval)) :
  get_rate (Body (JArray (map Dict items)))
  = rate_of_prices (last_price "GAS" items) (last_price "NEO" items).
Proof.
  rewrite get_rate_array, (scan_dicts items PyNone PyNone). reflexivity.
Qed.

(** The price of the last record with the symbol, when no later record has
    it. *)
Lemma last_price_middle (sym : string) (d : gmap string pyval)
    (before after : list (gmap string pyval)) :
  has_symbol sym d = true ->
  (forall d', In d' after -> has_symbol sym d' = false) ->
  last_price sym (before ++ d :: after)%list = dict_get d "usd_price".
Proof.
  intros Hd Ha. unfold last_price.
  rewrite List.filter_app. cbn [List.filter]. rewrite Hd.
  assert (E : List.filter (has_symbol sym) after = []).
  { induction after as [|d' after IH]; [reflexivity|].
    cbn [List.filter]. rewrite (Ha d') by (left; reflexivity).
    apply IH. intros d'' H. apply Ha. right. exact H. }
  rewrite E.
  rewrite last_snoc. reflexivity.
Qed.

End FeedMore.

(** X6. Records of other symbols are ignored: removing every record whose
    symbol is neither "NEO" nor "GAS" from an array of records leaves the
    result of [get_rate] as it was. *)
Theorem other_symbols_ignored {A : Arith} (items : list (gmap string pyval)) :
  get_rate (Body (JArray (map Dict (List.filter relevant items))))
  = get_rate (Body (JArray (map Dict items))).
Proof.
  rewrite !get_rate_dicts.
  rewrite (last_price_relevant "GAS") by (right; reflexivity).
  rewrite (last_price_relevant "NEO") by (left; reflexivity).
  reflexivity.
Qed.

(** X7. A later record without a price hides an earlier one: when the last
    record of one of the two symbols has no [usd_price] (or a null one),
    [get_rate] returns [None], whatever prices the records before it
    carry. *)
Theorem missing_price_hides_earlier_record {A : Arith}
    (sym : string) (d : gmap string pyval)
    (before after : list (gmap string pyval)) :
  sym = "NEO" \/ sym = "GAS" ->
  has_symbol sym d = true ->
  dict_get d "usd_price" = PyNone ->
  (forall d', In d' after -> has_symbol sym d' = false) ->
  get_rate (Body (JArray (map Dict (before ++ d :: after)%list))) = None.
Proof.
  intros Hs Hd Hp Ha. rewrite get_rate_dicts.
  pose proof (last_price_middle sym d before after Hd Ha) as E.
  rewrite Hp in E. unfold rate_of_prices.
  destruct Hs; subst sym; rewrite E.
  - reflexivity.
  - destruct (is_none _); reflexivity.
Qed.

Lemma missing_price_hides_earlier_record_witness :
  let d : gmap string (@pyval Binary64) :=
    <["symbol" := @PyStr Binary64 "NEO"]> ∅ in
  let before : list (gmap string (@pyval Binary64)) :=
    [<["symbol" := @PyStr Binary64 "NEO"]>
       (<["usd_price" := @PyNum Binary64 (b64 1)]> ∅);
     <["symbol" := @PyStr Binary64 "GAS"]>
       (<["usd_price" := @PyNum Binary64 (b64 0.3)]> ∅)] in
  @has_symbol Binary64 "NEO" d = true /\
  @dict_get Binary64 d "usd_price" = PyNone /\
  @get_rate Binary64 (Body (JArray (map Dict before))) = Some (b64 0.3) /\
  @get_rate Binary64 (Body (JArray (map Dict (before ++ d :: [])%list)))
    = None.
Proof.
  cbv zeta. split; [reflexivity|]. split; [reflexivity|].
  split; [reflexivity|].
  apply (@missing_price_hides_earlier_record Binary64 "NEO");
    [left; reflexivity | reflexivity | reflexivity | intros d' []].
Defined.

(** ** A rate that is not a number *)

Lemma nan_compares_false (x : float) :
  PrimFloat.leb x PrimFloat.nan = false /\
  PrimFloat.leb PrimFloat.nan x = false.
Proof.
  rewrite !leb_spec. unfold SFleb, SFcompare.
  replace (Prim2SF PrimFloat.nan) with S754_nan by reflexivity.
  destruct (Prim2SF x) as [[]| [] | |[] m e]; split; reflexivity.
Qed.

Lemma nan_fle_false (x : float) :
  @fle Binary64 x PrimFloat.nan = false /\
  @fle Binary64 PrimFloat.nan x = false.
Proof. exact (nan_compares_false x). Qed.

(** X8. A rate that is NaN (the quotient of two infinite prices, which
    [get_rate] returns as it is) passes through an iteration of [run]
    without effect: no entry, no exit, no exception, every attribute as it
    was, in every state.  In binary64. *)
Theorem nan_rate_is_ignored (s : FloatBot) :
  @get_rate Binary64 (@prices Binary64 infinity infinity)
    = Some PrimFloat.nan /\
  @run_iteration Binary64 (Some PrimFloat.nan) s = Returned tt s /\
  @run Binary64 [@prices Binary64 infinity infinity] s = Returned tt s.
Proof.
  assert (G : @get_rate Binary64 (@prices Binary64 infinity infinity)
              = Some PrimFloat.nan) by reflexivity.
  assert (E1 : @run_entry_neo_to_gas Binary64 PrimFloat.nan s
               = Returned tt s).
  { rewrite run_entry_neo_to_gas_cases.
    rewrite (proj1 (nan_fle_false _)).
    destruct (active_trade_neo_to_gas s); reflexivity. }
  assert (E2 : @run_entry_gas_to_neo Binary64 PrimFloat.nan s
               = Returned tt s).
  { rewrite run_entry_gas_to_neo_cases.
    rewrite (proj1 (nan_fle_false _)).
    destruct (active_trade_gas_to_neo s); reflexivity. }
  assert (E3 : @check_exit_neo_to_gas Binary64 PrimFloat.nan s
               = Returned tt s).
  { destruct (active_trade_neo_to_gas s) as [t|] eqn:T.
    - rewrite (@check_exit_neo_to_gas_cases Binary64 _ s t T).
      rewrite (proj1 (nan_fle_false _)). reflexivity.
    - cbv [check_exit_neo_to_gas bind read ret]. rewrite T. reflexivity. }
  assert (E4 : @check_exit_gas_to_neo Binary64 PrimFloat.nan s
               = Returned tt s).
  { destruct (active_trade_gas_to_neo s) as [t|] eqn:T.
    - rewrite (@check_exit_gas_to_neo_cases Binary64 _ s t T).
      rewrite (proj2 (nan_fle_false _)). reflexivity.
    - cbv [check_exit_gas_to_neo bind read ret]. rewrite T. reflexivity. }
  assert (R : @run_iteration Binary64 (Some PrimFloat.nan) s = Returned tt s).
  { cbv [run_iteration bind]. rewrite E1, E2, E3. exact E4. }
  split; [exact G|]. split; [exact R|].
  unfold run. cbn [map run_fetched]. rewrite G. unfold bind. rewrite R.
  reflexivity.
Qed.

(** ** Configuration *)

(** X9. [__init__] and the environment: [rpc_urls] is the single endpoint
    of NEO_RPC_URL when that variable is set and not empty, and the four
    default endpoints when it is empty or not set, so it is never empty and
    never holds an empty endpoint; [api_url] is FLAMINGO_API_URL as it is
    set, the empty string included, and the default only when the variable
    is not set. *)
Theorem rpc_urls_never_empty
    (env : gmap string string) (c : Ascii.ascii) (url : string) :
  rpc_urls (<["NEO_RPC_URL" := String c url]> env) = [String c url] /\
  rpc_urls (<["NEO_RPC_URL" := ""]> env)
    = ["https://mainnet1.neo.coz.io:443"; "https://mainnet2.neo.coz.io:443";
       "https://mainnet3.neo.coz.io:443"; "https://mainnet4.neo.coz.io:443"] /\
  rpc_urls (delete "NEO_RPC_URL" env)
    = ["https://mainnet1.neo.coz.io:443"; "https://mainnet2.neo.coz.io:443";
       "https://mainnet3.neo.coz.io:443"; "https://mainnet4.neo.coz.io:443"] /\
  rpc_urls env <> [] /\
  Forall (fun u => u <> "") (rpc_urls env) /\
  api_url (<["FLAMINGO_API_URL" := url]> env) = url /\
  api_url (delete "FLAMINGO_API_URL" env)
    = "https://flamingo-us-1.b-cdn.net/flamingo/live-data/prices/latest".
Proof.
  unfold rpc_urls, api_url, getenv, getenv_default.
  split; [rewrite lookup_insert_eq; reflexivity|].
  split; [rewrite lookup_insert_eq; reflexivity|].
  split; [rewrite lookup_delete_eq; reflexivity|].
  split; [|split; [|split]].
  - destruct (env !! "NEO_RPC_URL") as [u|]; [|discriminate].
    destruct u; simpl; discriminate.
  - destruct (env !! "NEO_RPC_URL") as [u|].
    + destruct u as [|a u]; simpl; repeat constructor; discriminate.
    + repeat constructor; discriminate.
  - rewrite lookup_insert_eq. reflexivity.
  - rewrite lookup_delete_eq. reflexivity.
Qed.

(** ** The channels do not interfere *)

(** X16. A step of one channel never touches the position of the other:
    after an entry block or an exit check of NEO -> GAS the GAS -> NEO
    position is what it was, and conversely, whether the step returns or
    raises.  In any arithmetic. *)
Theorem channels_do_not_interfere {A : Arith} (o : op) (s : Bot) :
  match op_channel o with
  | NeoToGas =>
      active_trade_gas_to_neo (final (apply_op o s))
      = active_trade_gas_to_neo s
  | GasToNeo =>
      active_trade_neo_to_gas (final (apply_op o s))
      = active_trade_neo_to_gas s
  end.
Proof.
  destruct o as [[|] rate|[|] rate];
    cbn [op_channel apply_op run_entry check_exit].
  - apply (neo_to_gas_steps_frame rate s).
  - apply (gas_to_neo_steps_frame rate s).
  - apply (neo_to_gas_steps_frame rate s).
  - apply (gas_to_neo_steps_frame rate s).
Qed.
